(** * bower-npm-resolver: the resolver adapter and the npm wrapper

    A shallow embedding of the two JavaScript sources:

    - [src/resolver.js]: the plugin handed to Bower ([match], [releases],
      [fetch] and the private [extractPackageName]);
    - the npm wrapper module that [resolver.js] loads as [./npm-utils]
      ([execViewCommand], [execCacheCommand], [normalizePkgName],
      [getLastKey], and the exported [releases] and [downloadTarball]).

    JavaScript strings are modelled by [string] (code units restricted to
    one byte, compared by code as [Array.prototype.sort] does), objects by
    finite maps from property names to values, promises by their final
    outcome, and the file system by finite maps and sets that the
    operations thread through explicitly. *)

From Stdlib Require Import ZArith Ascii.
From stdpp Require Import base option list gmap sets strings pretty sorting.

Local Open Scope Z_scope.

(** ** JavaScript values, errors, completions and promises *)

Module JS.

(** The fragment of JavaScript values that flows through the two files. *)
#[warnings="-register-all"]
Inductive value : Type :=
  | VUndefined
  | VNull
  | VBool (b : bool)
  | VNum (n : Z)
  | VStr (s : string)
  | VArr (items : list value)
  | VObj (props : gmap string value).

(** Errors: the two that the language itself raises in these files, and the
    ones reported by npm, the streams or the other collaborators. *)
Inductive error : Type :=
  | TypeError (what : string)
  | ReferenceError (ident : string)
  | Failure (msg : string).

(** Outcome of a synchronous call. *)
Inductive completion (A : Type) : Type :=
  | Return (a : A)
  | Throw (e : error).
Arguments Return {A} a.
Arguments Throw {A} e.

(** Final state of a promise (or of a node-style callback, where [Rejected]
    is the call with [err] set and [Pending] a callback never invoked). *)
Inductive promise (A : Type) : Type :=
  | Pending
  | Resolved (a : A)
  | Rejected (e : error).
Arguments Pending {A}.
Arguments Resolved {A} a.
Arguments Rejected {A} e.

(** [ToBoolean]. *)
Definition truthy (v : value) : bool :=
  match v with
  | VUndefined | VNull => false
  | VBool b => b
  | VNum n => negb (n =? 0)
  | VStr s => negb (String.eqb s "")
  | VArr _ | VObj _ => true
  end.

(** The canonical index that a property name denotes, below [n]. *)
Definition array_index (n : nat) (k : string) : option nat :=
  fst <$> list_find (λ i, pretty i = k) (seq 0 n).

(** [v[k]] for a value that is neither [undefined] nor [null]: own
    properties only. The names looked up on a prototype would be [version],
    [versions], [undefined] or a name given by [Object.keys], and no
    prototype defines the first three. *)
Definition get (v : value) (k : string) : value :=
  match v with
  | VObj props => default VUndefined (props !! k)
  | VArr items =>
      if String.eqb k "length" then VNum (Z.of_nat (length items))
      else default VUndefined (i ← array_index (length items) k; items !! i)
  | VStr s =>
      if String.eqb k "length" then VNum (Z.of_nat (String.length s))
      else default VUndefined
             (i ← array_index (String.length s) k;
              c ← String.get i s; Some (VStr (String c EmptyString)))
  | _ => VUndefined
  end.

(** Callbacks that touch the outside world thread a state of type [S]. *)
Definition state (S A : Type) : Type := S → A * S.

#[export] Instance state_ret {S} : MRet (state S) := λ A a s, (a, s).
#[export] Instance state_bind {S} : MBind (state S) :=
  λ A B f m s, let '(a, s') := m s in f a s'.

(** Promise chains without side effects: [p ≫= f] is [p.then(f)] where [f]
    yields the outcome of what it returns (a thrown exception is a
    [Rejected] outcome, a plain value a [Resolved] one). *)
#[export] Instance promise_ret : MRet promise := @Resolved.
#[export] Instance promise_bind : MBind promise :=
  λ A B f p,
    match p with
    | Resolved a => f a
    | Rejected e => Rejected e
    | Pending => Pending
    end.

(** [promise.then(f)] with a callback that acts on the state. *)
Definition then_ {S A B : Type} (p : promise A) (f : A → state S (promise B))
    : state S (promise B) :=
  match p with
  | Resolved a => f a
  | Rejected e => mret (Rejected e)
  | Pending => mret Pending
  end.

(** [promise.catch(h)]. *)
Definition catch_ {S A : Type} (p : promise A) (h : error → state S (promise A))
    : state S (promise A) :=
  match p with
  | Rejected e => h e
  | _ => mret p
  end.

(** [promise.finally(g)]: [g] runs once the promise settles; the outcome is
    kept unless [g] itself throws. *)
Definition finally_ {S A : Type} (p : promise A) (g : state S (completion unit))
    : state S (promise A) :=
  match p with
  | Pending => mret Pending
  | _ => r ← g;
         match r with
         | Return _ => mret p
         | Throw e => mret (Rejected e)
         end
  end.

(** *** Strings *)

(** [s.indexOf(pat)]: position of the first occurrence, or [-1]. *)
Fixpoint indexOf (pat s : string) : Z :=
  if String.prefix pat s then 0
  else match s with
       | EmptyString => -1
       | String _ s' => let i := indexOf pat s' in if i <? 0 then -1 else i + 1
       end.

(** [s.split(sep)] for a one-character separator. *)
Fixpoint split (sep : Ascii.ascii) (s : string) : list string :=
  match s with
  | EmptyString => [EmptyString]
  | String c s' =>
      if Ascii.eqb c sep then EmptyString :: split sep s'
      else match split sep s' with
           | [] => [String c EmptyString]
           | p :: ps => String c p :: ps
           end
  end.

(** [s.slice(n)] and [s.substr(n)] for [n >= 0]. *)
Fixpoint slice (n : nat) (s : string) : string :=
  match n, s with
  | O, _ => s
  | S n', String _ s' => slice n' s'
  | S _, EmptyString => EmptyString
  end.

(** [s.replace(/c/g, d)] for single characters. *)
Fixpoint replace_all (c d : Ascii.ascii) (s : string) : string :=
  match s with
  | EmptyString => EmptyString
  | String x s' => String (if Ascii.eqb x c then d else x) (replace_all c d s')
  end.

(** The characters of a string. *)
Definition chars (s : string) : list ascii := String.list_ascii_of_string s.

(** *** The slice of node's [path] module that the two files call *)

Record path_module : Type := {
  path_join : list string → string;      (* path.join(...) *)
  path_resolve : list string → string;   (* path.resolve(...) *)
}.

End JS.
Import JS.

(** ** The object exported by the npm wrapper, as [resolver.js] sees it

    [require('./npm-utils')] yields an object; a property that the module
    does not define reads as [undefined] ([None] here), and calling it
    throws a [TypeError]. *)
Record npm_utils : Type := {
  prop_releases : option (string → promise value);
  prop_downloadTarball :
    option (string → string → string → state (gmap string string) (promise string));
  prop_tarball : option (string → string → promise value);
}.

(** ** The npm wrapper ([./npm-utils]) *)

Module NpmUtils.

(** [meta] given by [npm.load]: the version of the npm in use. *)
Record npm_meta : Type := { meta_version : nat * nat * nat }.

(** What [cache.add] (npm < 5) and [pacote.manifest] report. *)
Record pkg_json : Type := {
  pj_name : string;
  pj_version : string;
  pj_integrity : string;     (* [_integrity] *)
}.

Record manifest : Type := { m_name : string; m_version : string }.

(** [{integrity, manifest}] as returned by [cache.add] with
    5.0.0 <= npm < 5.6.0 and rebuilt by [getManifest] otherwise. *)
Record cache_info : Type := { integrity : string; info_manifest : manifest }.

(** The two kinds of readable stream that are opened. *)
Inductive stream : Type :=
  | ReadStream (file : string)                     (* fs.createReadStream *)
  | DigestStream (cache : string) (digest : string). (* cacache.get.stream.byDigest *)

(** [{name, version, inputStream}]. *)
Record fetch_result : Type := {
  name : string;
  version : string;
  inputStream : stream;
}.

(** The npm installation in use: the outcome of each command for the
    arguments it is given. *)
Record npm : Type := {
  npm_load : promise npm_meta;
  npm_view : list string → promise value;
  npm_cache_add_cb : string → promise pkg_json;          (* npm < 5, callback *)
  npm_cache_add : string → promise (option cache_info);  (* npm >= 5, promise *)
  pacote_manifest : string → promise pkg_json;
  npm_cache : string;                                    (* npm.cache *)
}.

(** [semver.lt(a, b)] on plain [major.minor.patch] versions. *)
Definition semver_lt (a b : nat * nat * nat) : bool :=
  let '(a1, a2, a3) := a in
  let '(b1, b2, b3) := b in
  ((a1 <? b1) || ((a1 =? b1) && ((a2 <? b2) || ((a2 =? b2) && (a3 <? b3)))))%nat.

Section WithNpm.
Context (N : npm) (P : path_module).

Definition execNpm {A} (cb : npm_meta → promise A) : promise A :=
  meta ← npm_load N; cb meta.

Definition execViewCommand (args : list string) : promise value :=
  execNpm (λ _, npm_view N args).

Definition oldNpmCache (pkg : string) : promise fetch_result :=
  data ← npm_cache_add_cb N pkg;
  let name := pj_name data in
  let version := pj_version data in
  let tarball := path_resolve P [npm_cache N; name; version; "package.tgz"] in
  mret {| name := name; version := version; inputStream := ReadStream tarball |}.

Definition getManifest (pkg : string) : promise cache_info :=
  pkgJson ← pacote_manifest N pkg;
  mret {| integrity := pj_integrity pkgJson;
          info_manifest := {| m_name := pj_name pkgJson;
                              m_version := pj_version pkgJson |} |}.

Definition newNpmCache (pkg : string) : promise fetch_result :=
  info ← npm_cache_add N pkg;
  info ← (match info with Some i => mret i | None => getManifest pkg end);
  let manifest := info_manifest info in
  let cache := path_join P [npm_cache N; "_cacache"] in
  mret {| name := m_name manifest; version := m_version manifest;
          inputStream := DigestStream cache (integrity info) |}.

Definition execCacheCommand (pkg : string) : promise fetch_result :=
  execNpm (λ meta,
    if semver_lt (meta_version meta) (5, 0, 0)%nat then oldNpmCache pkg
    else newNpmCache pkg).

End WithNpm.

Definition normalizePkgName (name : string) : string :=
  match name with
  | String "@"%char rest => replace_all "/"%char "-"%char rest
  | _ => name
  end.

(** [Object.keys(o)]: own property names of an object; a string has its
    indices, other primitives have none; [undefined] and [null] throw. *)
Definition object_keys (o : value) : completion (list string) :=
  match o with
  | VObj props => Return (elements (dom props))
  | VArr items => Return (pretty <$> seq 0 (length items))
  | VStr s => Return (pretty <$> seq 0 (String.length s))
  | VBool _ | VNum _ => Return []
  | VUndefined | VNull => Throw (TypeError "Cannot convert undefined or null to object")
  end.

(** [keys.sort()]: ascending order of code units. *)
Definition sort (keys : list string) : list string := merge_sort String.le keys.

(** [keys[keys.length - 1]] is [undefined] ([None]) on an empty array. *)
Definition getLastKey (o : value) : completion (option string) :=
  match object_keys o with
  | Return keys => Return (last (sort keys))
  | Throw e => Throw e
  end.

(** [data[mostRecentVersion].versions]: the key [undefined] is looked up
    under the name ["undefined"]; reading a property of [undefined] or
    [null] throws. *)
Definition unwrap (data : value) (mostRecentVersion : option string) : promise value :=
  match get data (default "undefined" mostRecentVersion) with
  | VUndefined => Rejected (TypeError "Cannot read property 'versions' of undefined")
  | VNull => Rejected (TypeError "Cannot read property 'versions' of null")
  | entry => Resolved (get entry "versions")
  end.

Definition releases (N : npm) (pkg : string) : promise value :=
  data ← execViewCommand N [pkg; "versions"];
  match data with
  | VArr _ => mret data
  | _ =>
      match getLastKey data with
      | Return mostRecentVersion => unwrap data mostRecentVersion
      | Throw e => Rejected e
      end
  end.

(** *** Streams

    What happens while [inputStream.pipe(outputStream)] runs is a sequence
    of stream events; the stream machinery turns them into the signals that
    the listeners of [downloadTarball] receive. Any sequence may occur: an
    input may fail and still end later, or fail after it has ended. *)

Inductive io_event : Type :=
  | SrcData (chunk : string)   (* the input yields a chunk; pipe writes it *)
  | SrcEnd                     (* the input ends; pipe ends the output *)
  | SrcError (e : error)       (* the input signals an error *)
  | DstDone                    (* the ended output has flushed its file *)
  | DstError (e : error).      (* the output's file stream fails *)

Inductive signal : Type :=
  | InputError (e : error)     (* 'error' on inputStream *)
  | OutputError (e : error)    (* 'error' on outputStream *)
  | OutputClose.               (* 'close' on outputStream *)

Inductive writer_state : Type := Writing | Ending | Closed.

Record pipe_state : Type := {
  files : gmap string string;  (* path to content *)
  writer : writer_state;
}.

(** What the streams do during one download. *)
Record streams : Type := {
  tmp_suffix : string;                 (* suffix of the writer's temp file *)
  events : stream → list io_event;     (* what happens when it is piped *)
}.

(** The atomic write stream ([fs-write-stream-atomic], a dependency) keeps
    what it is given in a temporary file next to the target, so that the
    content is visible at the final path only once the write has
    completed. *)
Definition tmp_file (E : streams) (target : string) : string :=
  target +:+ "." +:+ tmp_suffix E.

Definition writeStreamAtomic (E : streams) (outputFile : string)
    (fs : gmap string string) : pipe_state :=
  {| files := <[tmp_file E outputFile := ""]> fs; writer := Writing |}.

(** One event of the piped pair, as node's [pipe] and the atomic writer
    behave. [pipe] writes every chunk of the input to the output and ends
    the output when the input ends; it has no listener for the errors of
    the input, so that a failed input leaves the output as it is, open to
    what the input does next. Once the output has been ended nothing more
    is written to it; it moves its temporary file to the target when it has
    flushed, removes it when it fails, and emits ['close'] after either,
    which unpipes it. *)
Definition pipe_step (target tmp : string) (st : pipe_state) (ev : io_event)
    : pipe_state * list signal :=
  match ev with
  | SrcData chunk =>
      match writer st with
      | Writing =>
          ({| files := alter (λ old, old +:+ chunk) tmp (files st);
              writer := Writing |}, [])
      | _ => (st, [])
      end
  | SrcEnd =>
      match writer st with
      | Writing => ({| files := files st; writer := Ending |}, [])
      | _ => (st, [])
      end
  | SrcError e => (st, [InputError e])
  | DstDone =>
      match writer st, files st !! tmp with
      | Ending, Some content =>
          ({| files := <[target := content]> (delete tmp (files st));
              writer := Closed |}, [OutputClose])
      | Ending, None =>
          ({| files := files st; writer := Closed |},
           [OutputError (Failure "ENOENT"); OutputClose])
      | _, _ => (st, [])
      end
  | DstError e =>
      match writer st with
      | Closed => (st, [])
      | _ =>
          ({| files := delete tmp (files st); writer := Closed |},
           [OutputError e; OutputClose])
      end
  end.

(** A deferred settles once: later calls of [resolve] and [reject] are
    ignored. *)
Definition settle {A} (d outcome : promise A) : promise A :=
  match d with
  | Pending => outcome
  | _ => d
  end.

(** The three listeners that [downloadTarball] installs. *)
Definition listener (outputFile : string) (deferred : promise string) (sg : signal)
    : promise string :=
  match sg with
  | InputError err => settle deferred (Rejected err)
  | OutputError err => settle deferred (Rejected err)
  | OutputClose => settle deferred (Resolved outputFile)
  end.

(** [inputStream.pipe(outputStream)] with the listeners in place: the state
    of the streams and the deferred. *)
Fixpoint pipe (outputFile tmp : string) (evs : list io_event)
    (st : pipe_state) (deferred : promise string)
    : pipe_state * promise string :=
  match evs with
  | [] => (st, deferred)
  | ev :: evs' =>
      let '(st', sgs) := pipe_step outputFile tmp st ev in
      pipe outputFile tmp evs' st' (foldl (listener outputFile) deferred sgs)
  end.

(** The body of the [then] callback of [downloadTarball]. *)
Definition copy (P : path_module) (E : streams) (result : fetch_result)
    (dir : string) (fs : gmap string string) : pipe_state * promise string :=
  let inputStream := inputStream result in
  let targetDir := path_resolve P [dir] in
  let name := normalizePkgName (name result) in
  let fileName := name +:+ "-" +:+ version result +:+ ".tgz" in
  let outputFile := path_join P [targetDir; fileName] in
  let outputStream := writeStreamAtomic E outputFile fs in
  pipe outputFile (tmp_file E outputFile) (events E inputStream)
       outputStream Pending.

Definition downloadTarball (N : npm) (P : path_module) (E : streams)
    (pkg version dir : string) : state (gmap string string) (promise string) :=
  λ fs,
    match execCacheCommand N P (pkg +:+ "@" +:+ version) with
    | Resolved result =>
        let '(st, deferred) := copy P E result dir fs in
        (deferred, files st)
    | Rejected err => (Rejected err, fs)
    | Pending => (Pending, fs)
    end.

(** [module.exports]: [releases] and [downloadTarball], nothing else. *)
Definition exports (N : npm) (P : path_module) (E : streams) : npm_utils :=
  {| prop_releases := Some (releases N);
     prop_downloadTarball := Some (downloadTarball N P E);
     prop_tarball := None |}.

(** *** What is said of a download *)

(** The path that [downloadTarball] gives to its output. *)
Definition output_path (P : path_module) (result : fetch_result) (dir : string)
    : string :=
  path_join P [path_resolve P [dir];
               normalizePkgName (name result) +:+ "-" +:+ version result +:+ ".tgz"].

(** The chunks that the input yields before it ends or fails. *)
Fixpoint delivered (evs : list io_event) : list string :=
  match evs with
  | [] => []
  | SrcData chunk :: evs' => chunk :: delivered evs'
  | SrcEnd :: _ => []
  | SrcError _ :: _ => []
  | DstDone :: evs' => delivered evs'
  | DstError _ :: evs' => delivered evs'
  end.


End NpmUtils.

(** ** The resolver ([src/resolver.js]) *)

Module Resolver.

(** What Bower passes to [fetch]. *)
Record endpoint : Type := { source : string; target : string }.

(** What is observable of a run of [fetch] besides its result. *)
Inductive event : Type :=
  | DirSync (dir : string)                       (* tmp.dirSync created [dir] *)
  | RemoveCallback (dir : string)                (* [dir] removed with its content *)
  | Tarball (pkg target : string)                (* npmUtils.tarball(pkg, target) *)
  | DownloadFetch (url : value) (dir : string)   (* download.fetch(url, dir) *)
  | ExtractTgz (tarball : value) (dir : string). (* extract.tgz(tarball, dir) *)

Record world : Type := {
  dirs : gset string;     (* the temporary directories that exist *)
  log : list event;       (* most recent first *)
}.

(** The modules that [resolver.js] requires. *)
Record modules : Type := {
  tmp_name : gset string → string;   (* the name that tmp.dirSync picks *)
  path : path_module;
  npmUtils : npm_utils;
  (** Modelled from the spec: the downloader ([./download], not among the
      sources) fetches [url] into [dir] and yields the path of the file. *)
  download_fetch : value → string → promise value;
  (** Modelled from the spec: the archive extractor ([./extract], not
      among the sources) unpacks [tarball] into [dir] and yields the
      directory that holds the result. *)
  extract_tgz : value → string → promise value;
}.

Definition emit (ev : event) : state world unit :=
  λ w, (tt, {| dirs := dirs w; log := ev :: log w |}).

(** [tmp.dirSync({unsafeCleanup: true})]: a new directory; the result
    stands for the object whose [name] it is. *)
Definition dirSync (M : modules) : state world string :=
  λ w, let d := tmp_name M (dirs w) in
       (d, {| dirs := {[d]} ∪ dirs w; log := DirSync d :: log w |}).

(** [t.removeCallback()]. *)
Definition removeCallback (d : string) : state world (completion unit) :=
  λ w, (Return tt, {| dirs := dirs w ∖ {[d]}; log := RemoveCallback d :: log w |}).

(** [split] never yields an empty array, so [parts[0]] is a string. *)
Definition extractPackageName (source : string) : string :=
  let parts := split "="%char source in
  slice 4 (default "" (parts !! 0%nat)).

Definition match_ (source : string) : bool :=
  indexOf "npm+" source =? 0.

(** [{target: v, version: v}]. *)
Definition release (v : value) : value :=
  VObj (<["target" := v]> (<["version" := v]> ∅)).

(** [versions.map(f)]: only arrays have [map]. *)
Definition array_map (f : value → value) (versions : value) : promise value :=
  match versions with
  | VArr items => Resolved (VArr (f <$> items))
  | VUndefined | VNull => Rejected (TypeError "Cannot read property 'map' of undefined")
  | _ => Rejected (TypeError "versions.map is not a function")
  end.

Definition releases (M : modules) (source : string) : completion (promise value) :=
  let pkg := extractPackageName source in
  match prop_releases (npmUtils M) with
  | Some npmUtils_releases =>
      Return (versions ← npmUtils_releases pkg; array_map release versions)
  | None => Throw (TypeError "npmUtils.releases is not a function")
  end.

(** What [fetch] returns: nothing, or the promise at the end of the chain. *)
Inductive returned : Type :=
  | Undefined
  | Promise (p : promise value).

(** [{tempPath: path.join(dir, 'package'), removeIgnores: true}];
    [path.join] rejects an argument that is not a string. *)
Definition extracted (M : modules) (dir : value) : promise value :=
  match dir with
  | VStr d =>
      Resolved (VObj (<["tempPath" := VStr (path_join (path M) [d; "package"])]>
                     (<["removeIgnores" := VBool true]> ∅)))
  | _ => Rejected (TypeError "Path must be a string")
  end.

Definition fetch (M : modules) (endpoint : endpoint) (cached : value)
    : state world (completion returned) :=
  if truthy cached && truthy (get cached "version") then mret (Return Undefined)
  else
    let pkg := extractPackageName (source endpoint) in
    tmpTar ← dirSync M;
    tmpPackage ← dirSync M;
    match prop_tarball (npmUtils M) with
    | None => mret (Throw (TypeError "npmUtils.tarball is not a function"))
    | Some npmUtils_tarball =>
        emit (Tarball pkg (target endpoint));;
        p ← then_ (npmUtils_tarball pkg (target endpoint)) (λ url,
              emit (DownloadFetch url tmpTar);;
              mret (download_fetch M url tmpTar));
        p ← then_ p (λ tarball,
              emit (ExtractTgz tarball tmpPackage);;
              mret (extract_tgz M tarball tmpPackage));
        p ← then_ p (λ dir, mret (extracted M dir));
        (* [tmpDir] is not declared anywhere: evaluating it throws. *)
        p ← catch_ p (λ _, mret (Rejected (ReferenceError "tmpDir")));
        p ← finally_ p (removeCallback tmpTar);
        mret (Return (Promise p))
    end.

(** The outcome of the chain before its [catch]: registry, download,
    extraction, result object. *)
Definition chain (M : modules) (f : string → string → promise value)
    (pkg target tmpTar tmpPackage : string) : promise value :=
  url ← f pkg target;
  tarball ← download_fetch M url tmpTar;
  dir ← extract_tgz M tarball tmpPackage;
  extracted M dir.

(** What the [catch] handler, which throws, makes of it. *)
Definition after_catch (p : promise value) : promise value :=
  match p with
  | Rejected _ => Rejected (ReferenceError "tmpDir")
  | _ => p
  end.

End Resolver.

(** ** The program as deployed: the resolver over the npm wrapper *)

Definition linked (N : NpmUtils.npm) (P : path_module) (E : NpmUtils.streams)
    (tmp_name : gset string → string)
    (download_fetch extract_tgz : value → string → promise value)
    : Resolver.modules :=
  {| Resolver.tmp_name := tmp_name;
     Resolver.path := P;
     Resolver.npmUtils := NpmUtils.exports N P E;
     Resolver.download_fetch := download_fetch;
     Resolver.extract_tgz := extract_tgz |}.

(** ** Concrete environments

    Environments on which the operations are evaluated below. *)

Module Examples.

(** [path] on absolute segments that are already in normal form, where
    joining and resolving both put ["/"] between the segments. *)
Definition posix : path_module :=
  {| path_join := String.concat "/"; path_resolve := String.concat "/" |}.

(** [tmp.dirSync] numbering its directories. *)
Definition numbered (ds : gset string) : string :=
  "/tmp/tmp-" +:+ pretty (size ds).

(** A wrapper that, besides what [U] has, exports [tarball]. *)
Definition with_tarball (U : npm_utils) (f : string → string → promise value)
    : npm_utils :=
  {| prop_releases := prop_releases U;
     prop_downloadTarball := prop_downloadTarball U;
     prop_tarball := Some f |}.

Definition tarball_url (pkg target : string) : promise value :=
  Resolved (VStr ("https://registry.npmjs.org/" +:+ pkg +:+ "/-/" +:+ pkg
                  +:+ "-" +:+ target +:+ ".tgz")).

Definition download_ok (url : value) (dir : string) : promise value :=
  Resolved (VStr (dir +:+ "/package.tgz")).

Definition extract_ok (tarball : value) (dir : string) : promise value :=
  Resolved (VStr dir).

Definition extract_fails (e : error) (tarball : value) (dir : string)
    : promise value :=
  Rejected e.

(** npm 6: [cache.add] yields nothing and the manifest comes from pacote;
    [bower@latest] is version 1.8.8. *)
Definition npm6 (view : promise value) : NpmUtils.npm :=
  {| NpmUtils.npm_load := Resolved {| NpmUtils.meta_version := (6, 14, 8)%nat |};
     NpmUtils.npm_view := λ _, view;
     NpmUtils.npm_cache_add_cb := λ _, Rejected (Failure "cache.add: callback API removed");
     NpmUtils.npm_cache_add := λ _, Resolved None;
     NpmUtils.pacote_manifest := λ _,
       Resolved {| NpmUtils.pj_name := "bower"; NpmUtils.pj_version := "1.8.8";
                   NpmUtils.pj_integrity := "sha512-bower188" |};
     NpmUtils.npm_cache := "/home/user/.npm" |}.

(** A transfer of the given events, whatever the stream. *)
Definition transfer (evs : list NpmUtils.io_event) : NpmUtils.streams :=
  {| NpmUtils.tmp_suffix := "1234567890"; NpmUtils.events := λ _, evs |}.

Definition no_transfer : NpmUtils.streams := transfer [].

(** The resolver over the npm wrapper of this repository. *)
Definition deployed (view : promise value) : Resolver.modules :=
  linked (npm6 view) posix no_transfer numbered download_ok extract_ok.

(** The resolver over a wrapper that also exports [tarball]. *)
Definition with_registry (extract : value → string → promise value)
    : Resolver.modules :=
  {| Resolver.tmp_name := numbered;
     Resolver.path := posix;
     Resolver.npmUtils :=
       with_tarball (NpmUtils.exports (npm6 Pending) posix no_transfer) tarball_url;
     Resolver.download_fetch := download_ok;
     Resolver.extract_tgz := extract |}.

Definition bower : Resolver.endpoint :=
  {| Resolver.source := "npm+bower=1.7.7"; Resolver.target := "1.7.7" |}.

Definition empty_world : Resolver.world :=
  {| Resolver.dirs := ∅; Resolver.log := [] |}.

End Examples.

(** * Properties *)

(** ** Strings *)

Section Strings.

Lemma app_cons (a : ascii) (s t : string) : String a s +:+ t = String a (s +:+ t).
Proof. reflexivity. Qed.

Lemma app_empty (t : string) : "" +:+ t = t.
Proof. reflexivity. Qed.

Lemma prefix_app (p s : string) :
  String.prefix p s = true ↔ ∃ rest, s = p +:+ rest.
Proof.
  revert s. induction p as [|a p IH]; intros s.
  - split; [exists s; reflexivity | destruct s; reflexivity].
  - destruct s as [|b s]; simpl.
    + split; [discriminate | intros [rest Hrest]; discriminate].
    + destruct (ascii_dec a b) as [->|Hab].
      * rewrite IH. split; intros [rest Hrest]; exists rest.
        -- rewrite app_cons. congruence.
        -- rewrite app_cons in Hrest. congruence.
      * split; [discriminate | intros [rest Hrest]].
        rewrite app_cons in Hrest. congruence.
Qed.

Lemma indexOf_zero (pat s : string) :
  indexOf pat s = 0 ↔ String.prefix pat s = true.
Proof.
  destruct s as [|c s]; cbn [indexOf].
  - destruct (String.prefix pat ""); split; intros; done.
  - destruct (String.prefix pat (String c s)); [done|].
    destruct (indexOf pat s <? 0) eqn:Hi; [split; intros; done|].
    apply Z.ltb_ge in Hi. split; [lia | done].
Qed.

Lemma split_first (sep : ascii) (name rest : string) :
  sep ∉ chars name →
  split sep (name +:+ String sep rest) = name :: split sep rest.
Proof.
  induction name as [|c name IH]; intros Hfree.
  - rewrite app_empty. simpl. rewrite Ascii.eqb_refl. reflexivity.
  - rewrite app_cons. simpl.
    assert (c ≠ sep) as Hc by (intros ->; apply Hfree; left).
    apply Ascii.eqb_neq in Hc. rewrite Hc, IH; [reflexivity|].
    intros Hin. apply Hfree. right. exact Hin.
Qed.

Lemma replace_all_absent (c d : ascii) (s : string) :
  c ∉ chars s → replace_all c d s = s.
Proof.
  induction s as [|x s IH]; intros Hfree; [reflexivity|]. simpl.
  assert (x ≠ c) as Hx by (intros ->; apply Hfree; left).
  apply Ascii.eqb_neq in Hx. rewrite Hx, IH; [reflexivity|].
  intros Hin. apply Hfree. right. exact Hin.
Qed.

Lemma replace_all_app (c d : ascii) (s t : string) :
  replace_all c d (s +:+ t) = replace_all c d s +:+ replace_all c d t.
Proof.
  induction s as [|x s IH]; [reflexivity|].
  rewrite app_cons. simpl. rewrite IH. reflexivity.
Qed.


End Strings.

(** ** [match] and [extractPackageName] *)

(** C9: [match] answers [true] exactly for the sources that begin with the
    reserved prefix [npm+]. *)
Theorem match_iff_prefix (source : string) :
  Resolver.match_ source = true ↔ ∃ rest, source = "npm+" +:+ rest.
Proof.
  unfold Resolver.match_. rewrite Z.eqb_eq, indexOf_zero. apply prefix_app.
Qed.

Lemma extractPackageName_shape (name rest : string) :
  "="%char ∉ chars name →
  Resolver.extractPackageName ("npm+" +:+ name +:+ "=" +:+ rest) = name.
Proof.
  intros Hfree. unfold Resolver.extractPackageName.
  change ("npm+" +:+ name +:+ "=" +:+ rest)
    with (("npm+" +:+ name) +:+ String "=" rest).
  rewrite split_first; [reflexivity|].
  intros Hin. apply Hfree. unfold chars in *. simpl in Hin.
  rewrite !elem_of_cons in Hin.
  destruct Hin as [Heq|[Heq|[Heq|[Heq|Hin]]]]; try discriminate Heq.
  exact Hin.
Qed.

(** ** [fetch] *)

Section Fetch.
Import Resolver.

(** Runs the state-passing code of a goal as far as its data allow. *)
Ltac run_state :=
  repeat (unfold mbind, mret, state_bind, state_ret, promise_bind, promise_ret,
                 then_, catch_, finally_, dirSync, emit, removeCallback;
          cbn [fst snd dirs log]).

Lemma fetch_chain (M : modules) (f : string → string → promise value)
    (ep : endpoint) (cached : value) (w : world) :
  truthy cached && truthy (get cached "version") = false →
  prop_tarball (npmUtils M) = Some f →
  let tmpTar := tmp_name M (dirs w) in
  let tmpPackage := tmp_name M ({[tmpTar]} ∪ dirs w) in
  let p := chain M f (extractPackageName (source ep)) (target ep) tmpTar tmpPackage in
  ∃ lg,
    fetch M ep cached w =
      (Return (Promise (after_catch p)),
       {| dirs := match p with
                  | Pending => {[tmpPackage]} ∪ ({[tmpTar]} ∪ dirs w)
                  | _ => ({[tmpPackage]} ∪ ({[tmpTar]} ∪ dirs w)) ∖ {[tmpTar]}
                  end;
          log := match p with
                 | Pending => lg
                 | _ => RemoveCallback tmpTar :: lg
                 end |})
    ∧ Tarball (extractPackageName (source ep)) (target ep) ∈ lg.
Proof.
  intros Hmiss Hf tmpTar tmpPackage p. subst p. unfold fetch, chain.
  rewrite Hmiss, Hf. generalize (extractPackageName (source ep)) as pkg.
  intros pkg. run_state. fold tmpTar. fold tmpPackage.
  destruct (f pkg (target ep)) as [|url|e]; run_state;
    [eexists; split; [reflexivity|set_solver] | |
     eexists; split; [reflexivity|set_solver]].
  destruct (download_fetch M url tmpTar) as [|tarball|e]; run_state;
    [eexists; split; [reflexivity|set_solver] | |
     eexists; split; [reflexivity|set_solver]].
  destruct (extract_tgz M tarball tmpPackage) as [|dir|e]; run_state;
    [eexists; split; [reflexivity|set_solver] | |
     eexists; split; [reflexivity|set_solver]].
  destruct (extracted M dir) as [|v|e]; run_state;
    eexists; (split; [reflexivity|set_solver]).
Qed.

(** X7: the chain when every step succeeds: the download is asked to put the
    file into the first directory, the extractor to unpack into the second,
    and the promise resolves with the [package] directory under what the
    extractor yields. *)
Lemma fetch_success (M : modules) (f : string → string → promise value)
    (ep : endpoint) (cached : value) (w : world) (url tarball : value)
    (dir : string) :
  truthy cached && truthy (get cached "version") = false →
  prop_tarball (npmUtils M) = Some f →
  let tmpTar := tmp_name M (dirs w) in
  let tmpPackage := tmp_name M ({[tmpTar]} ∪ dirs w) in
  f (extractPackageName (source ep)) (target ep) = Resolved url →
  download_fetch M url tmpTar = Resolved tarball →
  extract_tgz M tarball tmpPackage = Resolved (VStr dir) →
  fetch M ep cached w =
    (Return (Promise (Resolved (VObj
       (<["tempPath" := VStr (path_join (path M) [dir; "package"])]>
        (<["removeIgnores" := VBool true]> ∅))))),
     {| dirs := ({[tmpPackage]} ∪ ({[tmpTar]} ∪ dirs w)) ∖ {[tmpTar]};
        log := [ RemoveCallback tmpTar;
                 ExtractTgz tarball tmpPackage;
                 DownloadFetch url tmpTar;
                 Tarball (extractPackageName (source ep)) (target ep);
                 DirSync tmpPackage;
                 DirSync tmpTar ] ++ log w |}).
Proof.
  intros Hmiss Hf tmpTar tmpPackage Hurl Htarball Hdir. unfold fetch.
  rewrite Hmiss, Hf. generalize dependent (extractPackageName (source ep)).
  intros pkg Hurl. run_state. fold tmpTar. fold tmpPackage.
  rewrite Hurl. run_state. rewrite Htarball. run_state. rewrite Hdir.
  reflexivity.
Qed.

(** C4: with a [cached] argument whose [version] is truthy, [fetch]
    returns [undefined] at once: no directory is created or removed and no
    collaborator is called, the world is left as it was. *)
Theorem fetch_cached_noop (M : modules) (ep : endpoint) (cached : value)
    (w : world) :
  truthy cached = true →
  truthy (get cached "version") = true →
  fetch M ep cached w = (Return Undefined, w).
Proof.
  intros Hcached Hversion. unfold fetch. rewrite Hcached, Hversion. reflexivity.
Qed.

Lemma fetch_cached_noop_witness :
  let cached := VObj {[ "version" := VStr "1.7.7" ]} in
  truthy cached = true ∧ truthy (get cached "version") = true ∧
  fetch (Examples.deployed Pending) Examples.bower cached Examples.empty_world
    = (Return Undefined, Examples.empty_world).
Proof.
  split; [reflexivity|]. split; [reflexivity|].
  apply fetch_cached_noop; reflexivity.
Defined.

(** C1: over the npm wrapper of this repository, a [fetch] that is not a
    cache hit allocates its two directories and then throws: the wrapper
    exports [releases] and [downloadTarball] but no [tarball], so the call
    [npmUtils.tarball(...)] is a call of [undefined]. Nothing is asked of
    the registry, no promise is returned and both directories stay. *)
Theorem fetch_deployed_throws (N : NpmUtils.npm) (P : path_module)
    (E : NpmUtils.streams) (tmp_name : gset string → string)
    (download extract : value → string → promise value)
    (ep : endpoint) (w : world) :
  let tmpTar := tmp_name (dirs w) in
  let tmpPackage := tmp_name ({[tmpTar]} ∪ dirs w) in
  fetch (linked N P E tmp_name download extract) ep VUndefined w =
    (Throw (TypeError "npmUtils.tarball is not a function"),
     {| dirs := {[tmpPackage]} ∪ ({[tmpTar]} ∪ dirs w);
        log := DirSync tmpPackage :: DirSync tmpTar :: log w |}).
Proof. reflexivity. Qed.

(** C2, as stated, fails: after a [fetch] that succeeded the extraction
    directory is still there (the resolved [tempPath] lies inside it); and
    over the npm wrapper of this repository, where [fetch] ends by
    throwing, both directories are. *)
Lemma fetch_success_keeps_extraction_dir :
  let run := fetch (Examples.with_registry Examples.extract_ok) Examples.bower
                   VUndefined Examples.empty_world in
  let deployed := fetch (Examples.deployed Pending) Examples.bower VUndefined
                        Examples.empty_world in
  run.1 = Return (Promise (Resolved (VObj
             (<["tempPath" := VStr "/tmp/tmp-1/package"]>
              (<["removeIgnores" := VBool true]> ∅)))))
  ∧ ("/tmp/tmp-1" ∈ dirs run.2)
  ∧ ("/tmp/tmp-0" ∉ dirs run.2)
  ∧ log run.2 =
      [ RemoveCallback "/tmp/tmp-0";
        ExtractTgz (VStr "/tmp/tmp-0/package.tgz") "/tmp/tmp-1";
        DownloadFetch (VStr "https://registry.npmjs.org/bower/-/bower-1.7.7.tgz")
                      "/tmp/tmp-0";
        Tarball "bower" "1.7.7";
        DirSync "/tmp/tmp-1";
        DirSync "/tmp/tmp-0" ]
  ∧ ("/tmp/tmp-0" ∈ dirs deployed.2)
  ∧ ("/tmp/tmp-1" ∈ dirs deployed.2).
Proof.
  cbv zeta. split; [vm_compute; reflexivity|].
  split; [apply (bool_decide_unpack _); vm_compute; exact I|].
  split; [apply (bool_decide_unpack _); vm_compute; exact I|].
  split; [vm_compute; reflexivity|].
  split; apply (bool_decide_unpack _); vm_compute; exact I.
Qed.

(** C2, amended: when the registry call yields a promise and the chain
    settles, the directory of the tarball is removed by the final step of
    the chain, whether the chain succeeded or failed; after a success the
    extraction directory is kept. *)
Theorem fetch_removes_tar_dir (M : modules) (f : string → string → promise value)
    (ep : endpoint) (cached : value) (w : world) :
  (∀ ds, tmp_name M ds ∉ ds) →
  truthy cached && truthy (get cached "version") = false →
  prop_tarball (npmUtils M) = Some f →
  let tmpTar := tmp_name M (dirs w) in
  let tmpPackage := tmp_name M ({[tmpTar]} ∪ dirs w) in
  ∃ p w',
    fetch M ep cached w = (Return (Promise p), w') ∧
    (p ≠ Pending →
       (tmpTar ∉ dirs w') ∧ head (log w') = Some (RemoveCallback tmpTar)) ∧
    (∀ v, p = Resolved v → tmpPackage ∈ dirs w').
Proof.
  intros Hfresh Hmiss Hf tmpTar tmpPackage.
  destruct (fetch_chain M f ep cached w Hmiss Hf) as (lg & Hrun & _).
  cbv zeta in Hrun. fold tmpTar in Hrun. fold tmpPackage in Hrun.
  eexists _, _. split; [exact Hrun|].
  assert (tmpPackage ≠ tmpTar) as Hne.
  { intros Heq. apply (Hfresh ({[tmpTar]} ∪ dirs w)).
    fold tmpPackage. rewrite Heq. set_solver. }
  destruct (chain M f _ _ tmpTar tmpPackage) as [|v|e]; cbn [after_catch dirs log].
  - split; [intros Hp; by destruct Hp | intros v Hv; discriminate Hv].
  - split; [intros _; split; [|reflexivity] | intros _ _].
    + apply not_elem_of_difference. right. by apply elem_of_singleton.
    + apply elem_of_difference. split.
      * apply elem_of_union_l. by apply elem_of_singleton.
      * by rewrite elem_of_singleton.
  - split; [intros _; split; [|reflexivity] | intros v Hv; discriminate Hv].
    apply not_elem_of_difference. right. by apply elem_of_singleton.
Qed.

Lemma fetch_removes_tar_dir_witness :
  let M := {| tmp_name := fresh; path := Examples.posix;
              npmUtils := Examples.with_tarball
                            (NpmUtils.exports (Examples.npm6 Pending) Examples.posix
                                              Examples.no_transfer)
                            Examples.tarball_url;
              download_fetch := Examples.download_ok;
              extract_tgz := Examples.extract_fails (Failure "TAR_BAD_ARCHIVE") |} in
  let tmpTar := tmp_name M (dirs Examples.empty_world) in
  let tmpPackage := tmp_name M ({[tmpTar]} ∪ dirs Examples.empty_world) in
  (∀ ds, tmp_name M ds ∉ ds) ∧
  truthy VUndefined && truthy (get VUndefined "version") = false ∧
  prop_tarball (npmUtils M) = Some Examples.tarball_url ∧
  ∃ p w',
    fetch M Examples.bower VUndefined Examples.empty_world = (Return (Promise p), w') ∧
    (p ≠ Pending →
       (tmpTar ∉ dirs w') ∧ head (log w') = Some (RemoveCallback tmpTar)) ∧
    (∀ v, p = Resolved v → tmpPackage ∈ dirs w').
Proof.
  intros M tmpTar tmpPackage.
  split; [intros ds; apply is_fresh|]. split; [reflexivity|]. split; [reflexivity|].
  apply (fetch_removes_tar_dir M Examples.tarball_url Examples.bower VUndefined
           Examples.empty_world);
    [intros ds; apply is_fresh | reflexivity | reflexivity].
Defined.

(** C3: when a step of the chain fails (here the extraction, with any
    error [e]), the [catch] handler evaluates the undeclared [tmpDir]: the
    promise is rejected with a [ReferenceError] that takes the place of
    [e], and the extraction directory is not removed. Over the npm wrapper
    of this repository the failure comes earlier, as an exception thrown
    by [fetch] itself, and the extraction directory is not removed
    either. *)
Theorem fetch_failure_masks_error (e : error) :
  let run := fetch (Examples.with_registry (Examples.extract_fails e))
                   Examples.bower VUndefined Examples.empty_world in
  let deployed := fetch (Examples.deployed Pending) Examples.bower VUndefined
                        Examples.empty_world in
  run.1 = Return (Promise (Rejected (ReferenceError "tmpDir")))
  ∧ ("/tmp/tmp-1" ∈ dirs run.2)
  ∧ log run.2 =
      [ RemoveCallback "/tmp/tmp-0";
        ExtractTgz (VStr "/tmp/tmp-0/package.tgz") "/tmp/tmp-1";
        DownloadFetch (VStr "https://registry.npmjs.org/bower/-/bower-1.7.7.tgz")
                      "/tmp/tmp-0";
        Tarball "bower" "1.7.7";
        DirSync "/tmp/tmp-1";
        DirSync "/tmp/tmp-0" ]
  ∧ deployed.1 = Throw (TypeError "npmUtils.tarball is not a function")
  ∧ ("/tmp/tmp-1" ∈ dirs deployed.2)
  ∧ log deployed.2 = [ DirSync "/tmp/tmp-1"; DirSync "/tmp/tmp-0" ].
Proof.
  cbv zeta. split; [vm_compute; reflexivity|].
  split; [apply (bool_decide_unpack _); vm_compute; exact I|].
  split; [vm_compute; reflexivity|].
  split; [vm_compute; reflexivity|].
  split; [apply (bool_decide_unpack _); vm_compute; exact I|].
  vm_compute; reflexivity.
Qed.

End Fetch.

(** ** The package reference *)

Section PackageReference.
Import Resolver.

(** C8, as stated, fails for the target: [fetch] takes it from the
    endpoint, not from the source string. Bower hands over the source
    [npm+bower=1.7.7] with the target [*]; the registry is asked for
    [bower] at [*], not at [1.7.7]. *)
Lemma fetch_target_not_from_source :
  let ep := {| source := "npm+" +:+ "bower" +:+ "=" +:+ "1.7.7"; target := "*" |} in
  let run := fetch (Examples.with_registry Examples.extract_ok) ep VUndefined
                   Examples.empty_world in
  (Tarball "bower" "*" ∈ log (snd run)) ∧ (Tarball "bower" "1.7.7" ∉ log (snd run)).
Proof.
  cbv zeta.
  assert (log (snd (fetch (Examples.with_registry Examples.extract_ok)
                          {| source := "npm+" +:+ "bower" +:+ "=" +:+ "1.7.7";
                             target := "*" |} VUndefined Examples.empty_world))
          = [ RemoveCallback "/tmp/tmp-0";
              ExtractTgz (VStr "/tmp/tmp-0/package.tgz") "/tmp/tmp-1";
              DownloadFetch (VStr "https://registry.npmjs.org/bower/-/bower-*.tgz")
                            "/tmp/tmp-0";
              Tarball "bower" "*";
              DirSync "/tmp/tmp-1";
              DirSync "/tmp/tmp-0" ]) as -> by (vm_compute; reflexivity).
  rewrite !elem_of_cons, elem_of_nil. split; [tauto|].
  intros H. repeat (destruct H as [H|H]; [discriminate H|]).
  exact (proj1 (elem_of_nil _) H).
Qed.

(** C8, amended: for a source [npm+name=rest] the package name that
    [releases] and [fetch] work with is exactly [name], the text between
    the four characters of the prefix and the first [=]; [releases] asks
    the wrapper for it, and [fetch] asks the registry for it at the
    endpoint's own target. *)
Theorem package_name_recovered (name rest : string) :
  "="%char ∉ chars name →
  let src := "npm+" +:+ name +:+ "=" +:+ rest in
  extractPackageName src = name
  ∧ (∀ M g, prop_releases (npmUtils M) = Some g →
       releases M src = Return (versions ← g name; array_map release versions))
  ∧ (∀ M f tgt cached w,
       prop_tarball (npmUtils M) = Some f →
       truthy cached && truthy (get cached "version") = false →
       Tarball name tgt ∈ log (snd (fetch M {| source := src; target := tgt |} cached w))).
Proof.
  intros Hfree src.
  assert (extractPackageName src = name) as Hname
    by (apply extractPackageName_shape; exact Hfree).
  split; [exact Hname|]. split.
  - intros M g Hg. unfold releases. rewrite Hg, Hname. reflexivity.
  - intros M f tgt cached w Hf Hmiss.
    destruct (fetch_chain M f {| source := src; target := tgt |} cached w Hmiss Hf)
      as (lg & Hrun & Hin).
    cbv zeta in Hrun. rewrite Hrun. cbn [snd log source target] in *.
    rewrite Hname in Hin.
    destruct (chain _ _ _ _ _ _); [exact Hin | right; exact Hin | right; exact Hin].
Qed.

Lemma package_name_recovered_witness :
  ("="%char ∉ chars "@angular/core") ∧
  let src := "npm+" +:+ "@angular/core" +:+ "=" +:+ "~4.0.0" in
  extractPackageName src = "@angular/core"
  ∧ (∀ M g, prop_releases (npmUtils M) = Some g →
       releases M src
         = Return (versions ← g "@angular/core"; array_map release versions))
  ∧ (∀ M f tgt cached w,
       prop_tarball (npmUtils M) = Some f →
       truthy cached && truthy (get cached "version") = false →
       Tarball "@angular/core" tgt
         ∈ log (snd (fetch M {| source := src; target := tgt |} cached w))).
Proof.
  assert ("="%char ∉ chars "@angular/core") as Hfree.
  { unfold chars. simpl. rewrite !elem_of_cons, elem_of_nil.
    intros H. repeat (destruct H as [H|H]; [discriminate H|]). exact H. }
  split; [exact Hfree|].
  exact (package_name_recovered "@angular/core" "~4.0.0" Hfree).
Defined.

End PackageReference.

(** ** [releases] *)

Section Releases.

(** The key that ends up last after sorting is the greatest one, whatever
    the order in which [Object.keys] lists them. *)
Lemma last_sort_greatest (keys : list string) (k : string) :
  k ∈ keys →
  (∀ k', k' ∈ keys → (k' ≤ k)%string) →
  last (NpmUtils.sort keys) = Some k.
Proof.
  intros Hk Hmax. unfold NpmUtils.sort.
  pose proof (StronglySorted_merge_sort String.le keys) as Hsorted.
  pose proof (merge_sort_Permutation String.le keys) as Hperm.
  destruct (last (merge_sort String.le keys)) as [x|] eqn:Hlast.
  - apply last_Some in Hlast as [l' Hl']. rewrite Hl' in Hsorted, Hperm.
    assert (x ∈ keys) as Hx by (rewrite <- Hperm; set_solver).
    assert (k ∈ l' ++ [x]) as Hin by (rewrite Hperm; exact Hk).
    apply elem_of_app in Hin as [Hin|Hin].
    + f_equal. apply (anti_symm String.le); [by apply Hmax|].
      eapply StronglySorted_app_1_elem_of; [exact Hsorted|exact Hin|set_solver].
    + apply list_elem_of_singleton in Hin. by rewrite Hin.
  - apply last_None in Hlast. rewrite Hlast in Hperm.
    apply Permutation_nil_l in Hperm. rewrite <- Hperm in Hk.
    by apply elem_of_nil in Hk.
Qed.

Lemma getLastKey_greatest (m : gmap string value) (k : string) :
  is_Some (m !! k) →
  (∀ k', k' ∈ dom m → (k' ≤ k)%string) →
  NpmUtils.getLastKey (VObj m) = Return (Some k).
Proof.
  intros Hk Hmax. unfold NpmUtils.getLastKey. cbn [NpmUtils.object_keys].
  f_equal. apply last_sort_greatest.
  - apply elem_of_elements, elem_of_dom. exact Hk.
  - intros k' Hk'. apply Hmax. by apply elem_of_elements.
Qed.

Lemma release_fields (v : value) :
  get (Resolver.release v) "target" = v ∧ get (Resolver.release v) "version" = v.
Proof.
  unfold Resolver.release, get. split.
  - by rewrite lookup_insert_eq.
  - rewrite lookup_insert_ne by done. by rewrite lookup_insert_eq.
Qed.

Lemma linked_releases (N : NpmUtils.npm) (P : path_module) (E : NpmUtils.streams)
    (tmp_name : gset string → string)
    (download extract : value → string → promise value) (source : string) :
  Resolver.releases (linked N P E tmp_name download extract) source =
    Return (versions ← NpmUtils.releases N (Resolver.extractPackageName source);
            Resolver.array_map Resolver.release versions).
Proof. reflexivity. Qed.

(** C5: whatever the registry answers to [view], [releases] resolves with
    the list of versions mapped, element by element and in order, to the
    objects [{target: v, version: v}]: the answer itself when it is an
    array, and otherwise the [versions] of the entry found under the
    greatest key of the answer. *)
Theorem releases_maps_versions (N : NpmUtils.npm) (P : path_module)
    (E : NpmUtils.streams) (tmp_name : gset string → string)
    (download extract : value → string → promise value)
    (source : string) (meta : NpmUtils.npm_meta) (data : value) :
  NpmUtils.npm_load N = Resolved meta →
  NpmUtils.npm_view N [Resolver.extractPackageName source; "versions"]
    = Resolved data →
  let result := Resolver.releases (linked N P E tmp_name download extract) source in
  (∀ versions, data = VArr versions →
     result = Return (Resolved (VArr (Resolver.release <$> versions))))
  ∧ (∀ m k entry versions,
       data = VObj m →
       m !! k = Some (VObj entry) →
       (∀ k', k' ∈ dom m → (k' ≤ k)%string) →
       entry !! "versions" = Some (VArr versions) →
       result = Return (Resolved (VArr (Resolver.release <$> versions))))
  ∧ (∀ v, get (Resolver.release v) "target" = v
          ∧ get (Resolver.release v) "version" = v).
Proof.
  intros Hload Hview result. subst result. rewrite linked_releases.
  unfold NpmUtils.releases, NpmUtils.execViewCommand, NpmUtils.execNpm.
  rewrite Hload. cbn [mbind promise_bind]. rewrite Hview.
  split; [|split; [|exact release_fields]].
  - intros versions ->. reflexivity.
  - intros m k entry versions -> Hk Hmax Hversions. cbn [mbind promise_bind].
    rewrite (getLastKey_greatest m k) by (rewrite ?Hk; eauto).
    unfold NpmUtils.unwrap. cbn [default from_option id get].
    rewrite Hk. cbn [from_option id]. rewrite Hversions. reflexivity.
Qed.

Lemma releases_maps_versions_witness :
  let data := VObj {[ "2.0.0" :=
                VObj {[ "versions" := VArr [VStr "1.0.0"; VStr "2.0.0"] ]} ]} in
  let N := Examples.npm6 (Resolved data) in
  let source := "npm+bower=2.0.0" in
  NpmUtils.npm_load N = Resolved {| NpmUtils.meta_version := (6, 14, 8)%nat |} ∧
  NpmUtils.npm_view N [Resolver.extractPackageName source; "versions"]
    = Resolved data ∧
  let result := Resolver.releases (Examples.deployed (Resolved data)) source in
  (∀ versions, data = VArr versions →
     result = Return (Resolved (VArr (Resolver.release <$> versions))))
  ∧ (∀ m k entry versions,
       data = VObj m →
       m !! k = Some (VObj entry) →
       (∀ k', k' ∈ dom m → (k' ≤ k)%string) →
       entry !! "versions" = Some (VArr versions) →
       result = Return (Resolved (VArr (Resolver.release <$> versions))))
  ∧ (∀ v, get (Resolver.release v) "target" = v
          ∧ get (Resolver.release v) "version" = v).
Proof.
  intros data N source. split; [reflexivity|]. split; [reflexivity|].
  apply (releases_maps_versions N Examples.posix Examples.no_transfer
           Examples.numbered Examples.download_ok Examples.extract_ok source
           {| NpmUtils.meta_version := (6, 14, 8)%nat |} data);
    reflexivity.
Defined.

(** The two shapes of answer, evaluated. *)
Example releases_of_array :
  Resolver.releases
    (Examples.deployed (Resolved (VArr [VStr "1.0.0"; VStr "1.1.0"])))
    "npm+bower=1.1.0"
  = Return (Resolved (VArr [Resolver.release (VStr "1.0.0");
                            Resolver.release (VStr "1.1.0")])).
Proof. vm_compute; reflexivity. Qed.

Example releases_of_map :
  Resolver.releases
    (Examples.deployed (Resolved (VObj
       (<["1.7.7" := VObj {[ "versions" := VArr [VStr "0.9.0"] ]}]>
        {[ "2.0.0" := VObj {[ "versions" := VArr [VStr "1.0.0"; VStr "2.0.0"] ]} ]}))))
    "npm+bower=2.0.0"
  = Return (Resolved (VArr [Resolver.release (VStr "1.0.0");
                            Resolver.release (VStr "2.0.0")])).
Proof. vm_compute; reflexivity. Qed.

(** C10: when [view] answers with a value that is not an array and has no
    keys, such as the empty object, there is no last key; the entry read
    under it is [undefined] and reading its [versions] throws, so that
    [releases] is rejected with a [TypeError] instead of resolving with an
    empty list. *)
Theorem releases_without_keys_rejects (N : NpmUtils.npm) (P : path_module)
    (E : NpmUtils.streams) (tmp_name : gset string → string)
    (download extract : value → string → promise value)
    (source : string) (meta : NpmUtils.npm_meta) (data : value) :
  NpmUtils.npm_load N = Resolved meta →
  NpmUtils.npm_view N [Resolver.extractPackageName source; "versions"]
    = Resolved data →
  (∀ items, data ≠ VArr items) →
  NpmUtils.object_keys data = Return [] →
  ∃ what,
    NpmUtils.releases N (Resolver.extractPackageName source)
      = Rejected (TypeError what)
    ∧ Resolver.releases (linked N P E tmp_name download extract) source
      = Return (Rejected (TypeError what))
    ∧ Resolver.releases (linked N P E tmp_name download extract) source
      ≠ Return (Resolved (VArr [])).
Proof.
  intros Hload Hview Harr Hkeys. rewrite linked_releases.
  assert (NpmUtils.releases N (Resolver.extractPackageName source)
          = Rejected (TypeError "Cannot read property 'versions' of undefined"))
    as Hrel.
  { unfold NpmUtils.releases, NpmUtils.execViewCommand, NpmUtils.execNpm.
    rewrite Hload. cbn [mbind promise_bind]. rewrite Hview.
    cbn [mbind promise_bind]. unfold NpmUtils.getLastKey. rewrite Hkeys.
    destruct data as [| |b|n|s|items|m]; try discriminate Hkeys; try reflexivity.
    - injection Hkeys as Hkeys. apply fmap_nil_inv in Hkeys.
      destruct s; [reflexivity|discriminate Hkeys].
    - by destruct (Harr items).
    - injection Hkeys as Hkeys. apply elements_empty_inv in Hkeys.
      apply leibniz_equiv, dom_empty_inv_L in Hkeys. subst m.
      unfold NpmUtils.unwrap, get. rewrite lookup_empty. reflexivity. }
  eexists. rewrite Hrel. split; [reflexivity|]. split; [reflexivity|].
  discriminate.
Qed.

Lemma releases_without_keys_rejects_witness :
  let N := Examples.npm6 (Resolved (VObj ∅)) in
  let source := "npm+bower=1.7.7" in
  NpmUtils.npm_load N = Resolved {| NpmUtils.meta_version := (6, 14, 8)%nat |} ∧
  NpmUtils.npm_view N [Resolver.extractPackageName source; "versions"]
    = Resolved (VObj ∅) ∧
  (∀ items, VObj ∅ ≠ VArr items) ∧
  NpmUtils.object_keys (VObj ∅) = Return [] ∧
  ∃ what,
    NpmUtils.releases N (Resolver.extractPackageName source)
      = Rejected (TypeError what)
    ∧ Resolver.releases (Examples.deployed (Resolved (VObj ∅))) source
      = Return (Rejected (TypeError what))
    ∧ Resolver.releases (Examples.deployed (Resolved (VObj ∅))) source
      ≠ Return (Resolved (VArr [])).
Proof.
  intros N source. split; [reflexivity|]. split; [reflexivity|].
  split; [discriminate|]. split; [reflexivity|].
  apply (releases_without_keys_rejects N Examples.posix Examples.no_transfer
           Examples.numbered Examples.download_ok Examples.extract_ok source
           {| NpmUtils.meta_version := (6, 14, 8)%nat |} (VObj ∅));
    [reflexivity | reflexivity | discriminate | reflexivity].
Defined.

End Releases.

(** ** [downloadTarball] *)

Section Download.
Import NpmUtils.


Lemma listeners_settled (target : string) (d : promise string) (sgs : list signal) :
  d ≠ Pending → foldl (listener target) d sgs = d.
Proof.
  intros Hd. induction sgs as [|sg sgs IH]; [reflexivity|]. cbn [foldl].
  assert (listener target d sg = d) as -> by (destruct sg, d; done). exact IH.
Qed.

(** A deferred that is settled stays as it is, whatever the streams do. *)
Lemma pipe_settled (target tmp : string) (evs : list io_event) (st : pipe_state)
    (d : promise string) :
  d ≠ Pending → (pipe target tmp evs st d).2 = d.
Proof.
  intros Hd. revert st.
  induction evs as [|ev evs IH]; intros st; [reflexivity|]. cbn [pipe].
  destruct (pipe_step target tmp st ev) as [st' sgs].
  rewrite listeners_settled by exact Hd. apply IH.
Qed.

(** Once the writer is closed the files are left alone. *)
Lemma pipe_closed (target tmp : string) (evs : list io_event)
    (fs : gmap string string) (d : promise string) :
  files (pipe target tmp evs {| files := fs; writer := Closed |} d).1 = fs.
Proof.
  revert d. induction evs as [|ev evs IH]; intros d; [reflexivity|].
  cbn [pipe]. destruct ev as [chunk| |e| |e]; cbn [pipe_step writer files]; apply IH.
Qed.




Lemma pipe_data (target tmp : string) (chunks : list string)
    (rest : list io_event) (fs : gmap string string) (acc : string)
    (d : promise string) :
  pipe target tmp ((SrcData <$> chunks) ++ rest)
       {| files := <[tmp := acc]> fs; writer := Writing |} d
  = pipe target tmp rest
       {| files := <[tmp := foldl String.app acc chunks]> fs; writer := Writing |} d.
Proof.
  revert acc. induction chunks as [|chunk chunks IH]; intros acc; [reflexivity|].
  cbn [fmap list_fmap app pipe pipe_step writer files foldl].
  rewrite alter_insert_eq. apply IH.
Qed.





(** A failing input that does not end: the promise is rejected and nothing
    appears at the final path. *)
Example downloadTarball_input_error :
  let run := downloadTarball (Examples.npm6 Pending) Examples.posix
               (Examples.transfer [SrcData "ustar"; SrcError (Failure "EINTEGRITY")])
               "bower" "1.8.8" "/tmp/out" ∅ in
  run.1 = Rejected (Failure "EINTEGRITY")
  ∧ run.2 !! "/tmp/out/bower-1.8.8.tgz" = None.
Proof. split; vm_compute; reflexivity. Qed.

(** A failing output: the error is reported, the ['close'] that follows
    it is ignored, and nothing is left at the final path. *)
Example downloadTarball_output_error :
  let run := downloadTarball (Examples.npm6 Pending) Examples.posix
               (Examples.transfer [SrcData "ustar"; DstError (Failure "ENOSPC")])
               "bower" "1.8.8" "/tmp/out" ∅ in
  run.1 = Rejected (Failure "ENOSPC") ∧ run.2 = ∅.
Proof. split; vm_compute; reflexivity. Qed.

Lemma normalizePkgName_scoped (scope nm : string) :
  "/"%char ∉ chars scope → "/"%char ∉ chars nm →
  normalizePkgName ("@" +:+ scope +:+ "/" +:+ nm) = scope +:+ "-" +:+ nm.
Proof.
  intros Hscope Hnm. change ("@" +:+ scope +:+ "/" +:+ nm)
    with (String "@" (scope +:+ String "/" nm)).
  cbn [normalizePkgName]. rewrite replace_all_app. cbn [replace_all].
  rewrite Ascii.eqb_refl, !replace_all_absent by assumption. reflexivity.
Qed.

Lemma normalizePkgName_unscoped (nm : string) :
  String.prefix "@" nm = false → normalizePkgName nm = nm.
Proof.
  destruct nm as [|c nm]; [reflexivity|]. cbn [String.prefix].
  destruct (ascii_dec "@" c) as [<-|Hc]; [by destruct nm|].
  intros _. unfold normalizePkgName.
  destruct c as [[] [] [] [] [] [] [] []]; try reflexivity. by destruct Hc.
Qed.

(** C6, as stated, fails: the file is named after what the registry
    reports, not after the arguments. For [bower] at [latest], which npm
    resolves to 1.8.8, the output is [bower-1.8.8.tgz]; nothing is written
    at [bower-latest.tgz], the path built from the arguments. *)
Lemma downloadTarball_named_by_registry :
  let run := downloadTarball (Examples.npm6 Pending) Examples.posix
               (Examples.transfer [SrcData "ustar"; SrcEnd; DstDone])
               "bower" "latest" "/tmp/out" ∅ in
  let claimed := path_join Examples.posix
                   [path_resolve Examples.posix ["/tmp/out"];
                    normalizePkgName "bower" +:+ "-" +:+ "latest" +:+ ".tgz"] in
  run.1 = Resolved "/tmp/out/bower-1.8.8.tgz"
  ∧ run.1 ≠ Resolved claimed
  ∧ run.2 !! claimed = None
  ∧ run.2 !! "/tmp/out/bower-1.8.8.tgz" = Some "ustar".
Proof.
  cbv zeta. split; [vm_compute; reflexivity|].
  split; [vm_compute; discriminate|].
  split; vm_compute; reflexivity.
Qed.

(** C6, amended: when the registry has answered and the transfer runs to
    its end, [downloadTarball] leaves the content at exactly the path
    [<resolved dir>/<normalized name>-<version>.tgz], where the name and
    the version are those of the registry's answer, and resolves with that
    path; the rest of the file system is as before, the writer's temporary
    file apart. Normalizing turns [@scope/name] into [scope-name] and
    leaves a name that does not start with [@] as it is. *)
Theorem downloadTarball_output_path (N : npm) (P : path_module) (E : streams)
    (pkg version dir : string) (fs : gmap string string)
    (result : fetch_result) (chunks : list string) :
  execCacheCommand N P (pkg +:+ "@" +:+ version) = Resolved result →
  events E (inputStream result) = (SrcData <$> chunks) ++ [SrcEnd; DstDone] →
  let outputFile :=
    path_join P [path_resolve P [dir];
                 normalizePkgName (name result) +:+ "-"
                   +:+ NpmUtils.version result +:+ ".tgz"] in
  downloadTarball N P E pkg version dir fs =
    (Resolved outputFile,
     <[outputFile := foldl String.app "" chunks]> (delete (tmp_file E outputFile) fs))
  ∧ (∀ scope nm, "/"%char ∉ chars scope → "/"%char ∉ chars nm →
       normalizePkgName ("@" +:+ scope +:+ "/" +:+ nm) = scope +:+ "-" +:+ nm)
  ∧ (∀ nm, String.prefix "@" nm = false → normalizePkgName nm = nm).
Proof.
  intros Hcache Hevents outputFile.
  split; [|split; [exact normalizePkgName_scoped|exact normalizePkgName_unscoped]].
  unfold downloadTarball. rewrite Hcache. unfold copy. fold outputFile.
  rewrite Hevents. unfold writeStreamAtomic. rewrite pipe_data.
  cbn [pipe pipe_step writer files]. rewrite lookup_insert_eq.
  cbn [pipe foldl listener settle files]. by rewrite delete_insert_eq.
Qed.

Lemma downloadTarball_output_path_witness :
  let N := Examples.npm6 Pending in
  let E := Examples.transfer [SrcData "ustar"; SrcData "data"; SrcEnd; DstDone] in
  let result := {| name := "bower"; version := "1.8.8";
                   inputStream := DigestStream "/home/user/.npm/_cacache"
                                               "sha512-bower188" |} in
  execCacheCommand N Examples.posix ("bower" +:+ "@" +:+ "1.8.8") = Resolved result ∧
  events E (inputStream result)
    = (SrcData <$> ["ustar"; "data"]) ++ [SrcEnd; DstDone] ∧
  let outputFile :=
    path_join Examples.posix
      [path_resolve Examples.posix ["/tmp/out"];
       normalizePkgName (name result) +:+ "-"
         +:+ NpmUtils.version result +:+ ".tgz"] in
  downloadTarball N Examples.posix E "bower" "1.8.8" "/tmp/out" ∅ =
    (Resolved outputFile,
     <[outputFile := foldl String.app "" ["ustar"; "data"]]>
       (delete (tmp_file E outputFile) ∅))
  ∧ (∀ scope nm, "/"%char ∉ chars scope → "/"%char ∉ chars nm →
       normalizePkgName ("@" +:+ scope +:+ "/" +:+ nm) = scope +:+ "-" +:+ nm)
  ∧ (∀ nm, String.prefix "@" nm = false → normalizePkgName nm = nm).
Proof.
  intros N E result. split; [reflexivity|]. split; [reflexivity|].
  exact (downloadTarball_output_path N Examples.posix E "bower" "1.8.8" "/tmp/out"
           ∅ result ["ustar"; "data"] eq_refl eq_refl).
Defined.

(** The same download, evaluated. *)
Example downloadTarball_bower :
  downloadTarball (Examples.npm6 Pending) Examples.posix
    (Examples.transfer [SrcData "ustar"; SrcData "data"; SrcEnd; DstDone])
    "bower" "1.8.8" "/tmp/out" ∅
  = (Resolved "/tmp/out/bower-1.8.8.tgz",
     {[ "/tmp/out/bower-1.8.8.tgz" := "ustardata" ]}).
Proof. vm_compute; reflexivity. Qed.

End Download.

(** * Further properties of the resolver *)

Section MoreStrings.

Lemma chars_app (s t : string) : chars (s +:+ t) = chars s ++ chars t.
Proof.
  induction s as [|c s IH]; [reflexivity|].
  rewrite app_cons. unfold chars in *. simpl. by rewrite IH.
Qed.

Lemma app_assoc_string (s t u : string) : (s +:+ t) +:+ u = s +:+ t +:+ u.
Proof.
  induction s as [|c s IH]; [reflexivity|]. rewrite !app_cons. by rewrite IH.
Qed.

Lemma app_empty_r (s : string) : s +:+ "" = s.
Proof. induction s as [|c s IH]; [reflexivity|]. rewrite app_cons. by rewrite IH. Qed.

Lemma split_absent (sep : ascii) (s : string) :
  sep ∉ chars s → split sep s = [s].
Proof.
  induction s as [|c s IH]; intros Hfree; [reflexivity|]. simpl.
  assert (c ≠ sep) as Hc by (intros ->; apply Hfree; left).
  apply Ascii.eqb_neq in Hc. rewrite Hc, IH; [reflexivity|].
  intros Hin. apply Hfree. right. exact Hin.
Qed.

Lemma split_parts_free (sep : ascii) (s : string) :
  Forall (λ part, sep ∉ chars part) (split sep s).
Proof.
  induction s as [|c s IH]; simpl.
  - constructor; [|constructor]. unfold chars. simpl. apply not_elem_of_nil.
  - destruct (Ascii.eqb_spec c sep) as [->|Hc].
    + constructor; [|exact IH]. unfold chars. simpl. apply not_elem_of_nil.
    + destruct (split sep s) as [|p ps]; constructor.
      * unfold chars. simpl. rewrite elem_of_cons, elem_of_nil. intros [Heq|[]].
        by apply Hc.
      * constructor.
      * apply Forall_cons in IH as [Hp _]. unfold chars in *. simpl.
        rewrite elem_of_cons. intros [Heq|Hin]; [by apply Hc|by apply Hp].
      * by apply Forall_cons in IH as [_ Hps].
Qed.

Lemma slice_chars (n : nat) (s : string) (c : ascii) :
  c ∈ chars (slice n s) → c ∈ chars s.
Proof.
  revert s. induction n as [|n IH]; intros s; [done|].
  destruct s as [|x s]; [done|]. cbn [slice]. intros Hin.
  unfold chars. simpl. right. by apply IH.
Qed.

Lemma slice_app (p s : string) : slice (String.length p) (p +:+ s) = s.
Proof. induction p as [|c p IH]; [reflexivity|]. rewrite app_cons. exact IH. Qed.

End MoreStrings.

Section MoreResolver.
Import Resolver.

(** Runs the state-passing code of [fetch] in a goal. *)
Ltac run_fetch :=
  repeat (unfold mbind, mret, state_bind, state_ret, promise_bind, promise_ret,
                 then_, catch_, finally_, dirSync, emit, removeCallback;
          cbn [fst snd dirs log]).

(** X1: the package name that [extractPackageName] yields never contains
    an [=], whatever the source. *)
Theorem extractPackageName_no_equals (source : string) :
  "="%char ∉ chars (extractPackageName source).
Proof.
  unfold extractPackageName. intros Hin. apply slice_chars in Hin.
  pose proof (split_parts_free "="%char source) as Hparts.
  destruct (split "=" source) as [|p ps]; cbn [lookup list_lookup default] in Hin.
  - by apply elem_of_nil in Hin.
  - apply Forall_cons in Hparts as [Hp _]. by apply Hp.
Qed.

(** X2: [extractPackageName] does not look at the prefix: it drops the
    first four characters whatever they are and keeps what precedes the
    first [=], or everything when the source has no [=]. *)
Theorem extractPackageName_any_prefix (prefix name rest : string) :
  String.length prefix = 4%nat →
  "="%char ∉ chars prefix →
  "="%char ∉ chars name →
  extractPackageName (prefix +:+ name +:+ "=" +:+ rest) = name
  ∧ extractPackageName (prefix +:+ name) = name.
Proof.
  intros Hlen Hprefix Hname.
  assert ("="%char ∉ chars (prefix +:+ name)) as Hfree.
  { rewrite chars_app, elem_of_app. tauto. }
  unfold extractPackageName. split.
  - change (prefix +:+ name +:+ "=" +:+ rest)
      with (prefix +:+ name +:+ String "=" rest).
    rewrite <- app_assoc_string, split_first by exact Hfree.
    cbn [lookup list_lookup default from_option id]. unfold id.
    rewrite <- Hlen. apply slice_app.
  - rewrite split_absent by exact Hfree.
    cbn [lookup list_lookup default from_option id]. unfold id.
    rewrite <- Hlen. apply slice_app.
Qed.

Lemma extractPackageName_any_prefix_witness :
  String.length "git+" = 4%nat ∧
  ("="%char ∉ chars "git+") ∧
  ("="%char ∉ chars "bower") ∧
  extractPackageName ("git+" +:+ "bower" +:+ "=" +:+ "1.7.7") = "bower"
  ∧ extractPackageName ("git+" +:+ "bower") = "bower".
Proof.
  assert (∀ s, (bool_decide ("="%char ∈ chars s) = false) → "="%char ∉ chars s)
    as Hdec by (intros s Hs; by apply bool_decide_eq_false in Hs).
  split; [reflexivity|].
  split; [apply Hdec; reflexivity|]. split; [apply Hdec; reflexivity|].
  apply (extractPackageName_any_prefix "git+" "bower" "1.7.7");
    [reflexivity | apply Hdec; reflexivity | apply Hdec; reflexivity].
Defined.

Lemma fetch_without_tarball (M : modules) (ep : endpoint) (cached : value)
    (w : world) :
  truthy cached && truthy (get cached "version") = false →
  prop_tarball (npmUtils M) = None →
  let tmpTar := tmp_name M (dirs w) in
  let tmpPackage := tmp_name M ({[tmpTar]} ∪ dirs w) in
  fetch M ep cached w =
    (Throw (TypeError "npmUtils.tarball is not a function"),
     {| dirs := {[tmpPackage]} ∪ ({[tmpTar]} ∪ dirs w);
        log := DirSync tmpPackage :: DirSync tmpTar :: log w |}).
Proof.
  intros Hmiss Hnone tmpTar tmpPackage. unfold fetch. rewrite Hmiss.
  unfold mbind, state_bind, dirSync. cbn [dirs log]. rewrite Hnone. reflexivity.
Qed.

(** X3: [fetch] returns [undefined] exactly on a cache hit, that is when
    [cached] and [cached.version] are both truthy; on a miss it returns a
    promise or throws. *)
Theorem fetch_undefined_iff_cached (M : modules) (ep : endpoint)
    (cached : value) (w : world) :
  (fetch M ep cached w).1 = Return Undefined
  ↔ truthy cached && truthy (get cached "version") = true.
Proof.
  destruct (truthy cached && truthy (get cached "version")) eqn:Hhit.
  - split; [done|intros _]. unfold fetch. by rewrite Hhit.
  - split; [|done]. destruct (prop_tarball (npmUtils M)) as [f|] eqn:Hf.
    + destruct (fetch_chain M f ep cached w Hhit Hf) as (lg & -> & _).
      discriminate.
    + rewrite (fetch_without_tarball M ep cached w Hhit Hf). discriminate.
Qed.

(** X4: on a cache miss, with [tmp.dirSync] giving names that are not in
    use, [fetch] creates two distinct directories, removes none of those
    that existed before, and never removes the extraction directory: it is
    there when [fetch] is over, whatever the outcome. *)
Theorem fetch_directories (M : modules) (ep : endpoint) (cached : value)
    (w : world) :
  (∀ ds, tmp_name M ds ∉ ds) →
  truthy cached && truthy (get cached "version") = false →
  let tmpTar := tmp_name M (dirs w) in
  let tmpPackage := tmp_name M ({[tmpTar]} ∪ dirs w) in
  let after := dirs (fetch M ep cached w).2 in
  tmpTar ≠ tmpPackage
  ∧ (tmpTar ∉ dirs w) ∧ (tmpPackage ∉ dirs w)
  ∧ (dirs w ⊆ after)
  ∧ (tmpPackage ∈ after)
  ∧ (after ⊆ {[tmpPackage]} ∪ ({[tmpTar]} ∪ dirs w)).
Proof.
  intros Hfresh Hmiss tmpTar tmpPackage after.
  pose proof (Hfresh (dirs w)) as Htar. fold tmpTar in Htar.
  pose proof (Hfresh ({[tmpTar]} ∪ dirs w)) as Hpkg. fold tmpPackage in Hpkg.
  assert (tmpTar ≠ tmpPackage) as Hne by set_solver.
  assert (tmpPackage ∉ dirs w) as Hpkg' by set_solver.
  split; [exact Hne|]. split; [exact Htar|]. split; [exact Hpkg'|].
  subst after. destruct (prop_tarball (npmUtils M)) as [f|] eqn:Hf.
  - destruct (fetch_chain M f ep cached w Hmiss Hf) as (lg & -> & _).
    cbn [snd dirs]. fold tmpTar. fold tmpPackage.
    destruct (chain M f _ _ tmpTar tmpPackage); set_solver.
  - rewrite (fetch_without_tarball M ep cached w Hmiss Hf).
    cbn [snd dirs]. fold tmpTar. fold tmpPackage. set_solver.
Qed.

Lemma fetch_directories_witness :
  let M := linked (Examples.npm6 Pending) Examples.posix Examples.no_transfer
                  fresh Examples.download_ok Examples.extract_ok in
  let w := Examples.empty_world in
  let tmpTar := tmp_name M (dirs w) in
  let tmpPackage := tmp_name M ({[tmpTar]} ∪ dirs w) in
  let after := dirs (fetch M Examples.bower VUndefined w).2 in
  (∀ ds, tmp_name M ds ∉ ds) ∧
  truthy VUndefined && truthy (get VUndefined "version") = false ∧
  tmpTar ≠ tmpPackage
  ∧ (tmpTar ∉ dirs w) ∧ (tmpPackage ∉ dirs w)
  ∧ (dirs w ⊆ after)
  ∧ (tmpPackage ∈ after)
  ∧ (after ⊆ {[tmpPackage]} ∪ ({[tmpTar]} ∪ dirs w)).
Proof.
  intros M w tmpTar tmpPackage after.
  split; [intros ds; apply is_fresh|]. split; [reflexivity|].
  apply (fetch_directories M Examples.bower VUndefined w);
    [intros ds; apply is_fresh | reflexivity].
Defined.

(** X5: the promise that [fetch] returns is never rejected with the error
    of the step that failed: whatever went wrong in the registry call, the
    download, the extraction or the building of the result, the rejection
    is the [ReferenceError] raised by the [catch] handler. *)
Theorem fetch_rejects_with_reference_error (M : modules) (ep : endpoint)
    (cached : value) (w : world) (e : error) :
  (fetch M ep cached w).1 = Return (Promise (Rejected e)) →
  e = ReferenceError "tmpDir".
Proof.
  destruct (truthy cached && truthy (get cached "version")) eqn:Hhit.
  - unfold fetch. rewrite Hhit. discriminate.
  - destruct (prop_tarball (npmUtils M)) as [f|] eqn:Hf.
    + destruct (fetch_chain M f ep cached w Hhit Hf) as (lg & -> & _).
      cbn [fst]. destruct (chain _ _ _ _ _ _); cbn [after_catch]; congruence.
    + rewrite (fetch_without_tarball M ep cached w Hhit Hf). discriminate.
Qed.

Lemma fetch_rejects_with_reference_error_witness :
  (fetch (Examples.with_registry (Examples.extract_fails (Failure "TAR_BAD_ARCHIVE")))
         Examples.bower VUndefined Examples.empty_world).1
    = Return (Promise (Rejected (ReferenceError "tmpDir")))
  ∧ ReferenceError "tmpDir" = ReferenceError "tmpDir".
Proof.
  assert ((fetch (Examples.with_registry
                    (Examples.extract_fails (Failure "TAR_BAD_ARCHIVE")))
                 Examples.bower VUndefined Examples.empty_world).1
          = Return (Promise (Rejected (ReferenceError "tmpDir")))) as Hrun
    by (vm_compute; reflexivity).
  split; [exact Hrun|].
  exact (fetch_rejects_with_reference_error _ _ _ _ _ Hrun).
Defined.

(** X6: while a step of the chain stays pending nothing is cleaned up:
    the promise of [fetch] is pending and both directories remain, no
    [removeCallback] having run. *)
Theorem fetch_pending_removes_nothing (M : modules)
    (f : string → string → promise value) (ep : endpoint) (cached : value)
    (w : world) :
  truthy cached && truthy (get cached "version") = false →
  prop_tarball (npmUtils M) = Some f →
  let tmpTar := tmp_name M (dirs w) in
  let tmpPackage := tmp_name M ({[tmpTar]} ∪ dirs w) in
  chain M f (extractPackageName (source ep)) (target ep) tmpTar tmpPackage
    = Pending →
  let run := fetch M ep cached w in
  run.1 = Return (Promise Pending)
  ∧ dirs run.2 = {[tmpPackage]} ∪ ({[tmpTar]} ∪ dirs w)
  ∧ ∃ lg, log run.2 = lg ++ log w ∧ ∀ d, RemoveCallback d ∉ lg.
Proof.
  intros Hmiss Hf tmpTar tmpPackage Hpending run. subst run.
  unfold fetch, chain in *. rewrite Hmiss, Hf.
  generalize dependent (extractPackageName (source ep)). intros pkg.
  run_fetch. fold tmpTar. fold tmpPackage.
  destruct (f pkg (target ep)) as [|url|e]; run_fetch; [|
    destruct (download_fetch M url tmpTar) as [|tarball|e]; run_fetch; [|
      destruct (extract_tgz M tarball tmpPackage) as [|dir|e]; run_fetch; [|
        destruct dir; discriminate | discriminate]
    | discriminate]
  | discriminate];
    intros _; (split; [done|]); (split; [done|]).
  - exists [Tarball pkg (target ep); DirSync tmpPackage; DirSync tmpTar].
    split; [done|]. intros d Hin. rewrite !elem_of_cons, elem_of_nil in Hin.
    repeat (destruct Hin as [Hin|Hin]; [discriminate Hin|]). exact Hin.
  - exists [DownloadFetch url tmpTar; Tarball pkg (target ep);
            DirSync tmpPackage; DirSync tmpTar].
    split; [done|]. intros d Hin. rewrite !elem_of_cons, elem_of_nil in Hin.
    repeat (destruct Hin as [Hin|Hin]; [discriminate Hin|]). exact Hin.
  - exists [ExtractTgz tarball tmpPackage; DownloadFetch url tmpTar;
            Tarball pkg (target ep); DirSync tmpPackage; DirSync tmpTar].
    split; [done|]. intros d Hin. rewrite !elem_of_cons, elem_of_nil in Hin.
    repeat (destruct Hin as [Hin|Hin]; [discriminate Hin|]). exact Hin.
Qed.

Lemma fetch_pending_removes_nothing_witness :
  let M := {| tmp_name := Examples.numbered; path := Examples.posix;
              npmUtils := Examples.with_tarball
                            (NpmUtils.exports (Examples.npm6 Pending) Examples.posix
                                              Examples.no_transfer)
                            (λ _ _, Pending);
              download_fetch := Examples.download_ok;
              extract_tgz := Examples.extract_ok |} in
  let w := Examples.empty_world in
  let tmpTar := tmp_name M (dirs w) in
  let tmpPackage := tmp_name M ({[tmpTar]} ∪ dirs w) in
  truthy VUndefined && truthy (get VUndefined "version") = false ∧
  prop_tarball (npmUtils M) = Some (λ _ _, Pending) ∧
  chain M (λ _ _, Pending) (extractPackageName (source Examples.bower))
        (target Examples.bower) tmpTar tmpPackage = Pending ∧
  let run := fetch M Examples.bower VUndefined w in
  run.1 = Return (Promise Pending)
  ∧ dirs run.2 = {[tmpPackage]} ∪ ({[tmpTar]} ∪ dirs w)
  ∧ ∃ lg, log run.2 = lg ++ log w ∧ ∀ d, RemoveCallback d ∉ lg.
Proof.
  intros M w tmpTar tmpPackage.
  split; [reflexivity|]. split; [reflexivity|]. split; [reflexivity|].
  exact (fetch_pending_removes_nothing M (λ _ _, Pending) Examples.bower
           VUndefined w eq_refl eq_refl eq_refl).
Defined.

End MoreResolver.

(** * Further properties of the npm wrapper *)

Section MoreNpmUtils.
Import NpmUtils.

(** X8: [getLastKey] yields the greatest own key of an object, in the
    order of code units and whatever the order in which the keys are
    listed, and yields nothing exactly for the empty object. *)
Theorem getLastKey_spec (m : gmap string value) (k : string) :
  (getLastKey (VObj m) = Return (Some k)
   ↔ is_Some (m !! k) ∧ ∀ k', k' ∈ dom m → (k' ≤ k)%string)
  ∧ (getLastKey (VObj m) = Return None ↔ m = ∅).
Proof.
  split; split.
  - unfold getLastKey. cbn [object_keys]. intros Hlast.
    injection Hlast as Hlast. unfold sort in Hlast.
    pose proof (StronglySorted_merge_sort String.le (elements (dom m))) as Hsorted.
    pose proof (merge_sort_Permutation String.le (elements (dom m))) as Hperm.
    apply last_Some in Hlast as [l' Hl']. rewrite Hl' in Hsorted, Hperm. split.
    + apply elem_of_dom, elem_of_elements. rewrite <- Hperm.
      apply elem_of_app. right. apply list_elem_of_singleton. reflexivity.
    + intros k' Hk'. apply elem_of_elements in Hk'. rewrite <- Hperm in Hk'.
      apply elem_of_app in Hk' as [Hk'|Hk'].
      * eapply StronglySorted_app_1_elem_of; [exact Hsorted|exact Hk'|].
        apply list_elem_of_singleton. reflexivity.
      * apply list_elem_of_singleton in Hk'. by rewrite Hk'.
  - intros [Hk Hmax]. by apply getLastKey_greatest.
  - unfold getLastKey. cbn [object_keys]. intros Hlast.
    injection Hlast as Hlast. apply last_None in Hlast. unfold sort in Hlast.
    pose proof (merge_sort_Permutation String.le (elements (dom m))) as Hperm.
    rewrite Hlast in Hperm. apply Permutation_nil_l in Hperm.
    symmetry in Hperm. apply elements_empty_inv in Hperm.
    by apply leibniz_equiv, dom_empty_inv_L in Hperm.
  - intros ->. reflexivity.
Qed.

(** Sorting by code units is not sorting by version. *)
Example getLastKey_not_semver :
  getLastKey (VObj (<["10.0.0" := VNull]> {[ "9.0.0" := VNull ]}))
  = Return (Some "9.0.0").
Proof. vm_compute; reflexivity. Qed.

(** X9: a failure of [npm.load] or of the [view] command reaches the
    caller of [releases] unchanged, through the wrapper and through the
    resolver. *)
Theorem releases_error_propagates (N : npm) (P : path_module) (E : streams)
    (tmp_name : gset string → string)
    (download extract : value → string → promise value)
    (source : string) (e : error) :
  npm_load N = Rejected e
  ∨ (∃ meta, npm_load N = Resolved meta
             ∧ npm_view N [Resolver.extractPackageName source; "versions"]
               = Rejected e) →
  releases N (Resolver.extractPackageName source) = Rejected e
  ∧ Resolver.releases (linked N P E tmp_name download extract) source
    = Return (Rejected e).
Proof.
  intros Herr. rewrite linked_releases.
  assert (releases N (Resolver.extractPackageName source) = Rejected e) as ->.
  { unfold releases, execViewCommand, execNpm.
    destruct Herr as [->|(meta & -> & Hview)]; [reflexivity|].
    cbn [mbind promise_bind]. by rewrite Hview. }
  done.
Qed.

Lemma releases_error_propagates_witness :
  let N := Examples.npm6 (Rejected (Failure "E404")) in
  (npm_load N = Rejected (Failure "E404")
   ∨ (∃ meta, npm_load N = Resolved meta
              ∧ npm_view N [Resolver.extractPackageName "npm+bower=1.7.7"; "versions"]
                = Rejected (Failure "E404"))) ∧
  releases N (Resolver.extractPackageName "npm+bower=1.7.7")
    = Rejected (Failure "E404")
  ∧ Resolver.releases (Examples.deployed (Rejected (Failure "E404")))
                      "npm+bower=1.7.7"
    = Return (Rejected (Failure "E404")).
Proof.
  intros N.
  assert (npm_load N = Rejected (Failure "E404")
          ∨ (∃ meta, npm_load N = Resolved meta
                     ∧ npm_view N [Resolver.extractPackageName "npm+bower=1.7.7";
                                   "versions"]
                       = Rejected (Failure "E404"))) as Herr.
  { right. eexists. split; reflexivity. }
  split; [exact Herr|].
  exact (releases_error_propagates N Examples.posix Examples.no_transfer
           Examples.numbered Examples.download_ok Examples.extract_ok
           "npm+bower=1.7.7" (Failure "E404") Herr).
Defined.

(** X10: when the promise of the resolver's [releases] resolves, it
    resolves with an array of [{target: v, version: v}] objects; an answer
    of the registry that does not lead to an array of versions never
    resolves it. *)
Theorem releases_resolves_with_pairs (N : npm) (P : path_module) (E : streams)
    (tmp_name : gset string → string)
    (download extract : value → string → promise value)
    (source : string) (v : value) :
  Resolver.releases (linked N P E tmp_name download extract) source
    = Return (Resolved v) →
  ∃ versions,
    releases N (Resolver.extractPackageName source) = Resolved (VArr versions)
    ∧ v = VArr (Resolver.release <$> versions).
Proof.
  rewrite linked_releases. intros Hrun. injection Hrun as Hrun.
  destruct (releases N (Resolver.extractPackageName source)) as [|versions|e];
    cbn [mbind promise_bind] in Hrun; try discriminate Hrun.
  destruct versions as [| | | | |items|]; try discriminate Hrun.
  injection Hrun as <-. by exists items.
Qed.

Lemma releases_resolves_with_pairs_witness :
  let answer := VObj {[ "2.0.0" :=
                  VObj {[ "versions" := VArr [VStr "1.0.0"; VStr "2.0.0"] ]} ]} in
  let v := VArr [Resolver.release (VStr "1.0.0"); Resolver.release (VStr "2.0.0")] in
  Resolver.releases (Examples.deployed (Resolved answer)) "npm+bower=2.0.0"
    = Return (Resolved v) ∧
  ∃ versions,
    releases (Examples.npm6 (Resolved answer))
             (Resolver.extractPackageName "npm+bower=2.0.0")
      = Resolved (VArr versions)
    ∧ v = VArr (Resolver.release <$> versions).
Proof.
  intros answer v.
  assert (Resolver.releases (Examples.deployed (Resolved answer)) "npm+bower=2.0.0"
          = Return (Resolved v)) as Hrun by (vm_compute; reflexivity).
  split; [exact Hrun|].
  exact (releases_resolves_with_pairs (Examples.npm6 (Resolved answer))
           Examples.posix Examples.no_transfer Examples.numbered
           Examples.download_ok Examples.extract_ok "npm+bower=2.0.0" v Hrun).
Defined.

Lemma replace_all_removes (c d : ascii) (s : string) :
  c ≠ d → c ∉ chars (replace_all c d s).
Proof.
  intros Hcd. induction s as [|x s IH]; unfold chars in *; simpl.
  - apply not_elem_of_nil.
  - rewrite elem_of_cons. intros [Heq|Hin]; [|by apply IH].
    destruct (Ascii.eqb_spec x c) as [->|Hx]; [by apply Hcd|by apply Hx].
Qed.

(** X11: a scoped name loses every [/] when it is normalized, so that the
    name of the output file is one path segment; and the scoped name
    [@scope/name] is normalized to the same text as the unscoped name
    [scope-name], so that the two packages, at one version, are written
    to the same file of a directory. *)
Theorem normalizePkgName_collision (P : path_module) (dir v : string)
    (s1 s2 : stream) (scope nm : string) :
  "/"%char ∉ chars scope → "/"%char ∉ chars nm →
  String.prefix "@" scope = false →
  (∀ s, "/"%char ∉ chars (normalizePkgName ("@" +:+ s)))
  ∧ normalizePkgName ("@" +:+ scope +:+ "/" +:+ nm)
    = normalizePkgName (scope +:+ "-" +:+ nm)
  ∧ output_path P {| name := "@" +:+ scope +:+ "/" +:+ nm; version := v;
                     inputStream := s1 |} dir
    = output_path P {| name := scope +:+ "-" +:+ nm; version := v;
                       inputStream := s2 |} dir.
Proof.
  intros Hscope Hnm Hunscoped.
  assert (normalizePkgName ("@" +:+ scope +:+ "/" +:+ nm)
          = normalizePkgName (scope +:+ "-" +:+ nm)) as Heq.
  { rewrite normalizePkgName_scoped by assumption.
    symmetry. apply normalizePkgName_unscoped.
    destruct scope as [|c scope]; [reflexivity|].
    rewrite app_cons. cbn [String.prefix] in *.
    destruct (ascii_dec "@" c); [|reflexivity]. by destruct scope. }
  split; [|split; [exact Heq|]].
  - intros s. change ("@" +:+ s) with (String "@" s). cbn [normalizePkgName].
    by apply replace_all_removes.
  - unfold output_path. cbn [name version]. by rewrite Heq.
Qed.

Lemma normalizePkgName_collision_witness :
  ("/"%char ∉ chars "babel") ∧ ("/"%char ∉ chars "core") ∧
  String.prefix "@" "babel" = false ∧
  (∀ s, "/"%char ∉ chars (normalizePkgName ("@" +:+ s)))
  ∧ normalizePkgName ("@" +:+ "babel" +:+ "/" +:+ "core")
    = normalizePkgName ("babel" +:+ "-" +:+ "core")
  ∧ output_path Examples.posix
      {| name := "@" +:+ "babel" +:+ "/" +:+ "core"; version := "7.0.0";
         inputStream := ReadStream "a" |} "/tmp/out"
    = output_path Examples.posix
      {| name := "babel" +:+ "-" +:+ "core"; version := "7.0.0";
         inputStream := ReadStream "b" |} "/tmp/out".
Proof.
  assert (∀ s, (bool_decide ("/"%char ∈ chars s) = false) → "/"%char ∉ chars s)
    as Hdec by (intros s Hs; by apply bool_decide_eq_false in Hs).
  split; [apply Hdec; reflexivity|]. split; [apply Hdec; reflexivity|].
  split; [reflexivity|].
  apply (normalizePkgName_collision Examples.posix "/tmp/out" "7.0.0"
           (ReadStream "a") (ReadStream "b") "babel" "core");
    [apply Hdec; reflexivity | apply Hdec; reflexivity | reflexivity].
Defined.

End MoreNpmUtils.

(** * Further properties of [downloadTarball] *)

Section MoreDownload.
Import NpmUtils.

Lemma pipe_ending (target tmp : string) (evs : list io_event)
    (fs : gmap string string) (acc : string) (x : string) :
  fs !! tmp = Some acc →
  let run := pipe target tmp evs {| files := fs; writer := Ending |} Pending in
  run.2 = Resolved x → x = target ∧ files run.1 !! target = Some acc.
Proof.
  intros Htmp.
  induction evs as [|ev evs IH]; [discriminate|].
  cbn zeta in *. cbn [pipe].
  destruct ev as [chunk| |e| |e]; cbn [pipe_step writer files].
  - apply IH.
  - apply IH.
  - cbn [foldl listener settle]. intros Hres.
    rewrite pipe_settled in Hres by discriminate. discriminate Hres.
  - rewrite Htmp. cbn [foldl listener settle]. intros Hres.
    rewrite pipe_settled in Hres by discriminate. injection Hres as <-.
    split; [reflexivity|]. rewrite pipe_closed. apply lookup_insert_eq.
  - cbn [foldl listener settle]. intros Hres.
    rewrite pipe_settled in Hres by discriminate. discriminate Hres.
Qed.

Lemma pipe_writing (target tmp : string) (evs : list io_event)
    (fs : gmap string string) (acc : string) (x : string) :
  let run := pipe target tmp evs
               {| files := <[tmp := acc]> fs; writer := Writing |} Pending in
  run.2 = Resolved x →
  x = target ∧ files run.1 !! target = Some (foldl String.app acc (delivered evs)).
Proof.
  revert acc.
  induction evs as [|ev evs IH]; intros acc; [discriminate|].
  cbn zeta in *. cbn [pipe delivered].
  destruct ev as [chunk| |e| |e]; cbn [pipe_step writer files foldl].
  - rewrite alter_insert_eq. apply IH.
  - apply pipe_ending, lookup_insert_eq.
  - cbn [foldl listener settle]. intros Hres.
    rewrite pipe_settled in Hres by discriminate. discriminate Hres.
  - apply IH.
  - cbn [foldl listener settle]. intros Hres.
    rewrite pipe_settled in Hres by discriminate. discriminate Hres.
Qed.

(** X12: when the promise of [downloadTarball] resolves, the registry has
    answered, the value is the output path built from that answer, and the
    file at that path holds exactly the chunks that the input stream
    yielded before it ended, in order. *)
Theorem downloadTarball_resolved_content (N : npm) (P : path_module)
    (E : streams) (pkg version dir : string) (fs fs' : gmap string string)
    (x : string) :
  downloadTarball N P E pkg version dir fs = (Resolved x, fs') →
  ∃ result,
    execCacheCommand N P (pkg +:+ "@" +:+ version) = Resolved result
    ∧ x = output_path P result dir
    ∧ fs' !! x
      = Some (foldl String.app "" (delivered (events E (inputStream result)))).
Proof.
  unfold downloadTarball.
  destruct (execCacheCommand N P (pkg +:+ "@" +:+ version)) as [|result|e];
    [discriminate| |discriminate].
  unfold copy. fold (output_path P result dir).
  set (out := output_path P result dir). unfold writeStreamAtomic.
  pose proof (pipe_writing out (tmp_file E out) (events E (inputStream result))
                fs "" x) as Hrun. cbn zeta in Hrun.
  destruct (pipe out (tmp_file E out) (events E (inputStream result)) _ Pending)
    as [st d]. cbn [fst snd] in Hrun.
  intros Heq. injection Heq as -> <-. destruct (Hrun eq_refl) as [-> Hfile].
  exists result. done.
Qed.

Lemma downloadTarball_resolved_content_witness :
  let N := Examples.npm6 Pending in
  let E := Examples.transfer [SrcData "ustar"; DstDone; SrcData "data"; SrcEnd;
                              SrcData "late"; DstDone] in
  let fs' : gmap string string := {[ "/tmp/out/bower-1.8.8.tgz" := "ustardata" ]} in
  downloadTarball N Examples.posix E "bower" "1.8.8" "/tmp/out" ∅
    = (Resolved "/tmp/out/bower-1.8.8.tgz", fs') ∧
  ∃ result,
    execCacheCommand N Examples.posix ("bower" +:+ "@" +:+ "1.8.8") = Resolved result
    ∧ "/tmp/out/bower-1.8.8.tgz" = output_path Examples.posix result "/tmp/out"
    ∧ fs' !! "/tmp/out/bower-1.8.8.tgz"
      = Some (foldl String.app "" (delivered (events E (inputStream result)))).
Proof.
  intros N E fs'.
  assert (downloadTarball N Examples.posix E "bower" "1.8.8" "/tmp/out" ∅
          = (Resolved "/tmp/out/bower-1.8.8.tgz", fs')) as Hrun
    by (vm_compute; reflexivity).
  split; [exact Hrun|].
  exact (downloadTarball_resolved_content N Examples.posix E "bower" "1.8.8"
           "/tmp/out" ∅ fs' "/tmp/out/bower-1.8.8.tgz" Hrun).
Defined.

(** The deferred is only ever rejected with the error of an event. *)
Lemma pipe_rejection_origin (target tmp : string) (evs : list io_event)
    (st : pipe_state) (d : promise string) (e : error) :
  writer st = Closed ∨ is_Some (files st !! tmp) →
  (pipe target tmp evs st d).2 = Rejected e →
  d = Rejected e ∨ SrcError e ∈ evs ∨ DstError e ∈ evs.
Proof.
  revert st d. induction evs as [|ev evs IH]; intros st d Htmp Hrun;
    [by left|].
  assert (d = Pending ∨ d ≠ Pending) as [->|Hd]
    by (destruct d; [by left|by right..]).
  2:{ left. by rewrite pipe_settled in Hrun. }
  right. cbn [pipe] in Hrun. destruct st as [fs w]. cbn [writer files] in Htmp.
  assert (∀ st', (writer st' = Closed ∨ is_Some (files st' !! tmp)) →
            (pipe target tmp evs st' Pending).2 = Rejected e →
            SrcError e ∈ ev :: evs ∨ DstError e ∈ ev :: evs) as Hquiet.
  { intros st' Htmp' Hrun'.
    destruct (IH st' Pending Htmp' Hrun') as [Heq|[Hin|Hin]];
      [discriminate Heq | left; by right | right; by right]. }
  assert (∀ st' e0, (ev = SrcError e0 ∨ ev = DstError e0) →
            (pipe target tmp evs st' (Rejected e0)).2 = Rejected e →
            SrcError e ∈ ev :: evs ∨ DstError e ∈ ev :: evs) as Hfailed.
  { intros st' e0 Hev Hrun'. rewrite pipe_settled in Hrun' by discriminate.
    injection Hrun' as ->. destruct Hev as [->| ->]; [left|right]; left. }
  destruct ev as [chunk| |e0| |e0], w;
    cbn [pipe_step writer files foldl listener settle] in Hrun;
    try (by (apply (Hfailed _ e0) in Hrun; [exact Hrun|auto]));
    try (by (apply Hquiet in Hrun;
             [exact Hrun | cbn [writer files]; first [exact Htmp | by left]])).
  - apply Hquiet in Hrun; [exact Hrun|]. cbn [writer files].
    right. destruct Htmp as [Hw|Htmp]; [discriminate Hw|].
    rewrite lookup_alter, decide_True by done. by apply fmap_is_Some.
  - apply Hquiet in Hrun; [exact Hrun|]. cbn [writer files].
    right. by destruct Htmp as [Hw|Htmp]; [discriminate Hw|].
  - destruct Htmp as [Hw|[content Htmp]]; [discriminate Hw|].
    rewrite Htmp in Hrun. cbn [foldl listener settle] in Hrun.
    rewrite pipe_settled in Hrun by discriminate. discriminate Hrun.
Qed.

(** X13: a rejection of [downloadTarball] is always an error that was
    reported to it: by [npm.load], by [cache.add], by the fetch of the
    manifest, in which cases no file is touched, or else an error that one
    of the two streams raised during the transfer. *)
Theorem downloadTarball_rejection_origin (N : npm) (P : path_module)
    (E : streams) (pkg version dir : string) (fs fs' : gmap string string)
    (e : error) :
  downloadTarball N P E pkg version dir fs = (Rejected e, fs') →
  let id := pkg +:+ "@" +:+ version in
  (fs' = fs
   ∧ (npm_load N = Rejected e ∨ npm_cache_add_cb N id = Rejected e
      ∨ npm_cache_add N id = Rejected e ∨ pacote_manifest N id = Rejected e))
  ∨ (∃ result,
       execCacheCommand N P id = Resolved result
       ∧ (SrcError e ∈ events E (inputStream result)
          ∨ DstError e ∈ events E (inputStream result))).
Proof.
  intros Hrun id. unfold downloadTarball in Hrun. fold id in Hrun.
  destruct (execCacheCommand N P id) as [|result|e0] eqn:Hcache;
    [discriminate Hrun| |].
  - right. exists result. split; [reflexivity|].
    unfold copy in Hrun. fold (output_path P result dir) in Hrun.
    set (out := output_path P result dir) in *.
    pose proof (pipe_rejection_origin out (tmp_file E out)
                  (events E (inputStream result))
                  (writeStreamAtomic E out fs) Pending e) as Horigin.
    destruct (pipe out (tmp_file E out) (events E (inputStream result))
                   (writeStreamAtomic E out fs) Pending) as [st d].
    injection Hrun as -> <-. cbn [snd] in Horigin.
    destruct Horigin as [Heq|Hin]; [| reflexivity | discriminate Heq | exact Hin].
    right. unfold writeStreamAtomic. cbn [files]. rewrite lookup_insert_eq. eauto.
  - left. injection Hrun as -> <-. split; [reflexivity|].
    unfold execCacheCommand, execNpm in Hcache.
    destruct (npm_load N) as [|meta|e1]; cbn [mbind promise_bind] in Hcache;
      [discriminate Hcache| |left; congruence].
    destruct (semver_lt (meta_version meta) (5, 0, 0)%nat).
    + unfold oldNpmCache in Hcache.
      destruct (npm_cache_add_cb N id) as [|data|e1];
        cbn [mbind promise_bind] in Hcache;
        [discriminate Hcache..|right; left; congruence].
    + unfold newNpmCache, getManifest in Hcache.
      destruct (npm_cache_add N id) as [|[info|]|e1];
        cbn [mbind promise_bind] in Hcache;
        [discriminate Hcache..| |right; right; left; congruence].
      destruct (pacote_manifest N id) as [|pj|e1];
        cbn [mbind promise_bind] in Hcache;
        [discriminate Hcache..|right; right; right; congruence].
Qed.

Lemma downloadTarball_rejection_origin_witness :
  let N := Examples.npm6 Pending in
  let E := Examples.transfer [SrcData "ustar"; DstError (Failure "ENOSPC")] in
  let id := "bower" +:+ "@" +:+ "1.8.8" in
  downloadTarball N Examples.posix E "bower" "1.8.8" "/tmp/out" ∅
    = (Rejected (Failure "ENOSPC"), ∅) ∧
  ((∅ = (∅ : gmap string string)
    ∧ (npm_load N = Rejected (Failure "ENOSPC")
       ∨ npm_cache_add_cb N id = Rejected (Failure "ENOSPC")
       ∨ npm_cache_add N id = Rejected (Failure "ENOSPC")
       ∨ pacote_manifest N id = Rejected (Failure "ENOSPC")))
   ∨ (∃ result,
        execCacheCommand N Examples.posix id = Resolved result
        ∧ (SrcError (Failure "ENOSPC") ∈ events E (inputStream result)
           ∨ DstError (Failure "ENOSPC") ∈ events E (inputStream result)))).
Proof.
  intros N E id.
  assert (downloadTarball N Examples.posix E "bower" "1.8.8" "/tmp/out" ∅
          = (Rejected (Failure "ENOSPC"), ∅)) as Hrun
    by (vm_compute; reflexivity).
  split; [exact Hrun|].
  exact (downloadTarball_rejection_origin N Examples.posix E "bower" "1.8.8"
           "/tmp/out" ∅ ∅ (Failure "ENOSPC") Hrun).
Defined.

(** X14: when the input stream fails and does nothing more than fail
    again, nothing ends the output stream: the promise is rejected with
    the first error of the input and the writer's temporary file stays in
    the target directory, with the chunks that were written before the
    failure. *)
Theorem downloadTarball_input_failure_leaves_temp (N : npm) (P : path_module)
    (E : streams) (pkg version dir : string) (fs : gmap string string)
    (result : fetch_result) (chunks : list string) (e : error)
    (later : list io_event) :
  execCacheCommand N P (pkg +:+ "@" +:+ version) = Resolved result →
  events E (inputStream result) = (SrcData <$> chunks) ++ SrcError e :: later →
  Forall (λ ev, ∃ e', ev = SrcError e') later →
  downloadTarball N P E pkg version dir fs =
    (Rejected e,
     <[tmp_file E (output_path P result dir) := foldl String.app "" chunks]> fs).
Proof.
  intros Hcache Hevents Hlater. unfold downloadTarball. rewrite Hcache.
  unfold copy. fold (output_path P result dir).
  set (out := output_path P result dir). rewrite Hevents.
  unfold writeStreamAtomic. rewrite pipe_data.
  cbn [pipe pipe_step foldl listener settle].
  generalize (foldl String.app "" chunks). intros content. clear Hevents.
  induction Hlater as [|ev later [e' ->] _ IH]; [reflexivity|].
  cbn [pipe pipe_step foldl listener settle]. exact IH.
Qed.

Lemma downloadTarball_input_failure_leaves_temp_witness :
  let N := Examples.npm6 Pending in
  let E := Examples.transfer [SrcData "ustar"; SrcError (Failure "EINTEGRITY");
                              SrcError (Failure "EBADF")] in
  let result := {| name := "bower"; version := "1.8.8";
                   inputStream := DigestStream "/home/user/.npm/_cacache"
                                               "sha512-bower188" |} in
  execCacheCommand N Examples.posix ("bower" +:+ "@" +:+ "1.8.8") = Resolved result ∧
  events E (inputStream result)
    = (SrcData <$> ["ustar"]) ++ SrcError (Failure "EINTEGRITY")
        :: [SrcError (Failure "EBADF")] ∧
  Forall (λ ev, ∃ e', ev = SrcError e') [SrcError (Failure "EBADF")] ∧
  downloadTarball N Examples.posix E "bower" "1.8.8" "/tmp/out" ∅ =
    (Rejected (Failure "EINTEGRITY"),
     <[tmp_file E (output_path Examples.posix result "/tmp/out")
         := foldl String.app "" ["ustar"]]> ∅).
Proof.
  intros N E result.
  assert (Forall (λ ev, ∃ e', ev = SrcError e') [SrcError (Failure "EBADF")])
    as Hlater by (constructor; [by eexists|constructor]).
  split; [reflexivity|]. split; [reflexivity|]. split; [exact Hlater|].
  exact (downloadTarball_input_failure_leaves_temp N Examples.posix E "bower"
           "1.8.8" "/tmp/out" ∅ result ["ustar"] (Failure "EINTEGRITY")
           [SrcError (Failure "EBADF")] eq_refl eq_refl Hlater).
Defined.

End MoreDownload.

Section MoreFetch.
Import Resolver.

Lemma fetch_success_witness :
  let M := Examples.with_registry Examples.extract_ok in
  let w := Examples.empty_world in
  let tmpTar := tmp_name M (dirs w) in
  let tmpPackage := tmp_name M ({[tmpTar]} ∪ dirs w) in
  let url := VStr "https://registry.npmjs.org/bower/-/bower-1.7.7.tgz" in
  let tarball := VStr "/tmp/tmp-0/package.tgz" in
  truthy VUndefined && truthy (get VUndefined "version") = false ∧
  prop_tarball (npmUtils M) = Some Examples.tarball_url ∧
  Examples.tarball_url (extractPackageName (source Examples.bower))
                       (target Examples.bower) = Resolved url ∧
  download_fetch M url tmpTar = Resolved tarball ∧
  extract_tgz M tarball tmpPackage = Resolved (VStr "/tmp/tmp-1") ∧
  fetch M Examples.bower VUndefined w =
    (Return (Promise (Resolved (VObj
       (<["tempPath" := VStr (path_join (path M) ["/tmp/tmp-1"; "package"])]>
        (<["removeIgnores" := VBool true]> ∅))))),
     {| dirs := ({[tmpPackage]} ∪ ({[tmpTar]} ∪ dirs w)) ∖ {[tmpTar]};
        log := [ RemoveCallback tmpTar;
                 ExtractTgz tarball tmpPackage;
                 DownloadFetch url tmpTar;
                 Tarball (extractPackageName (source Examples.bower))
                         (target Examples.bower);
                 DirSync tmpPackage;
                 DirSync tmpTar ] ++ log w |}).
Proof.
  intros M w tmpTar tmpPackage url tarball.
  assert (Examples.tarball_url (extractPackageName (source Examples.bower))
                               (target Examples.bower) = Resolved url) as Hurl
    by (vm_compute; reflexivity).
  assert (download_fetch M url tmpTar = Resolved tarball) as Htarball
    by (vm_compute; reflexivity).
  assert (extract_tgz M tarball tmpPackage = Resolved (VStr "/tmp/tmp-1")) as Hdir
    by (vm_compute; reflexivity).
  split; [reflexivity|]. split; [reflexivity|]. split; [exact Hurl|].
  split; [exact Htarball|]. split; [exact Hdir|].
  exact (fetch_success M Examples.tarball_url Examples.bower VUndefined w url
           tarball "/tmp/tmp-1" eq_refl eq_refl Hurl Htarball Hdir).
Defined.

End MoreFetch.
